(** * Fantasy-baseball analytics: category ratings, recommendations and
      rotisserie standings

    A shallow embedding of
      - [fantasy_baseball/analytics/team_analyzer.py]
        ([TeamAnalyzer._get_roster_breakdown], [_analyze_categories],
        [_generate_recommendations], [analyze_team]) and
      - [fantasy_baseball/import/nfbc_manual_import.py]
        ([project_team_standings]),
    together with the properties the specification states about them.

    Numbers.  A float is a rational [Q] (every finite binary64 value is
    one) or one of the three special values numpy produces.  The rate
    statistics (batting average, ERA, WHIP) are decimals that no float
    holds exactly and their rating depends on the last bits, so that path
    is computed as the source computes it, in binary64: every number is
    read as the nearest float and every operation is rounded to the
    nearest float, ties to even ([b64]).  The counting statistics are
    whole numbers and are kept exact.  Python [int(x)] truncates toward
    zero and raises on the special values.  Python dictionaries are
    [gmap]s where only lookups matter and association lists where the
    insertion order is observable. *)

From Stdlib Require Import QArith Qround Lqa Permutation.
From stdpp Require Import gmap strings list fin_maps sorting.

#[local] Open Scope Z_scope.

(** ** Exceptions *)

Inductive py_error : Set :=
  | ValueError        (* int(nan) *)
  | OverflowError     (* int(inf) *)
  | ZeroDivisionError (* Python division by zero *)
  | KeyError.         (* d[k] with k absent *)

Inductive result (A : Type) : Type :=
  | Ok (a : A)
  | Raise (e : py_error).
Arguments Ok {A} a.
Arguments Raise {A} e.

#[export] Instance result_ret : MRet result := fun _ a => Ok a.
#[export] Instance result_bind : MBind result := fun _ _ f m =>
  match m with
  | Ok a => f a
  | Raise e => Raise e
  end.

Definition raises {A} (m : result A) : Prop := ∃ e, m = Raise e.

(** ** Floating-point values as numpy produces them *)

Inductive npfloat : Type :=
  | Finite (q : Q)
  | PInf
  | NInf
  | NaN.

Definition Qsgn (q : Q) : Z := Z.sgn (Qnum q).

Definition inf_of_sign (s : Z) : npfloat :=
  match s with
  | Z0 => NaN
  | Zpos _ => PInf
  | Zneg _ => NInf
  end.

Definition fsign (x : npfloat) : option Z :=
  match x with
  | Finite q => Some (Qsgn q)
  | PInf => Some 1
  | NInf => Some (-1)
  | NaN => None
  end.

(** [x - y] *)
Definition fsub (x y : npfloat) : npfloat :=
  match x, y with
  | Finite a, Finite b => Finite (a - b)
  | NaN, _ | _, NaN => NaN
  | PInf, PInf | NInf, NInf => NaN
  | PInf, _ | _, NInf => PInf
  | NInf, _ | _, PInf => NInf
  end.

(** [x * y] *)
Definition fmul (x y : npfloat) : npfloat :=
  match x, y with
  | Finite a, Finite b => Finite (a * b)
  | _, _ =>
      match fsign x, fsign y with
      | Some s, Some t => inf_of_sign (s * t)
      | _, _ => NaN
      end
  end.

(** [x / y] with numpy's rule for a zero divisor: [0/0] is [nan] and
    [a/0] is an infinity with the sign of [a] (a warning, no exception). *)
Definition fdiv (x y : npfloat) : npfloat :=
  match x, y with
  | Finite a, Finite b =>
      if Qeq_bool b 0 then inf_of_sign (Qsgn a) else Finite (a / b)
  | Finite _, (PInf | NInf) => Finite 0
  | (PInf | NInf), Finite b =>
      match fsign x with
      | Some s => inf_of_sign (s * (if Qeq_bool b 0 then 1 else Qsgn b))
      | None => NaN
      end
  | _, _ => NaN
  end.

(** ** Binary64

    [b64 q] is the float nearest to the rational [q]: 53 significant bits,
    ties to the even significand, gradual underflow below [2^-1022]
    (multiples of [2^-1074]) and overflow to an infinity from [2^1024]
    on, after rounding.  It is the value of a decimal literal and of
    every arithmetic operation on floats. *)

(** [floor(log2(n/d))] *)
Definition Qlog2 (n d : positive) : Z :=
  let e := Z.log2 (Zpos n) - Z.log2 (Zpos d) in
  if 0 <=? e
  then (if Zpos d * 2 ^ e <=? Zpos n then e else e - 1)
  else (if Zpos d <=? Zpos n * 2 ^ (- e) then e else e - 1).

(** The integer nearest to [n/d], the even one of two nearest. *)
Definition round_half_even (n d : Z) : Z :=
  let k := n / d in
  match 2 * (n mod d) ?= d with
  | Lt => k
  | Gt => k + 1
  | Eq => if Z.even k then k else k + 1
  end.

(** The float nearest to [n/d]: [m * 2^p] with [p] the exponent of the
    last bit. *)
Definition b64_pos (n d : positive) : npfloat :=
  let e := Qlog2 n d in
  let p := Z.max (e - 52) (-1074) in
  let m := if 0 <=? p
           then round_half_even (Zpos n) (Zpos d * 2 ^ p)
           else round_half_even (Zpos n * 2 ^ (- p)) (Zpos d) in
  if (971 <? p) || ((p =? 971) && (2 ^ 53 <=? m)) then PInf
  else if 0 <=? p then Finite (inject_Z (m * 2 ^ p))
       else Finite (Qred (m # Z.to_pos (2 ^ (- p)))).

Definition fneg (x : npfloat) : npfloat :=
  match x with
  | Finite q => Finite (- q)
  | PInf => NInf
  | NInf => PInf
  | NaN => NaN
  end.

Definition b64 (q : Q) : npfloat :=
  match Qnum q with
  | Z0 => Finite 0
  | Zpos n => b64_pos n (Qden q)
  | Zneg n => fneg (b64_pos n (Qden q))
  end.

(** The float an exact result is rounded to. *)
Definition fround (x : npfloat) : npfloat :=
  match x with
  | Finite q => b64 q
  | _ => x
  end.

(** [x + y] without rounding *)
Definition fadd (x y : npfloat) : npfloat :=
  match x, y with
  | Finite a, Finite b => Finite (a + b)
  | NaN, _ | _, NaN => NaN
  | PInf, NInf | NInf, PInf => NaN
  | PInf, _ | _, PInf => PInf
  | NInf, _ | _, NInf => NInf
  end.

(** The operations of binary64: the exact result, rounded. *)
Definition fadd64 (x y : npfloat) : npfloat := fround (fadd x y).
Definition fsub64 (x y : npfloat) : npfloat := fround (fsub x y).
Definition fmul64 (x y : npfloat) : npfloat := fround (fmul x y).
Definition fdiv64 (x y : npfloat) : npfloat := fround (fdiv x y).

(** Truncation toward zero of a rational. *)
Definition Qtrunc (q : Q) : Z := Z.quot (Qnum q) (Zpos (Qden q)).

(** Python's [int(x)] on a float. *)
Definition py_int (x : npfloat) : result Z :=
  match x with
  | Finite q => Ok (Qtrunc q)
  | NaN => Raise ValueError
  | PInf | NInf => Raise OverflowError
  end.

(** ** Dictionaries whose insertion order is observable *)

Section odict.
Context {V : Type}.

Fixpoint dict_get (k : string) (d : list (string * V)) : option V :=
  match d with
  | [] => None
  | (k', v) :: d' => if String.eqb k k' then Some v else dict_get k d'
  end.

(** [d[k] = v]: replaces in place, or appends a new key at the end. *)
Fixpoint dict_set (k : string) (v : V) (d : list (string * V))
  : list (string * V) :=
  match d with
  | [] => [(k, v)]
  | (k', v') :: d' =>
      if String.eqb k k' then (k, v) :: d' else (k', v') :: dict_set k v d'
  end.

End odict.

(** ** Team data as [TeamDataManager.get_team_roster] returns it *)

Record player : Type := {
  fantasy_position : string;
  stats : option (gmap string Q)   (* [None]: the key 'stats' is absent *)
}.

Record team_data : Type := {
  team_name : string;
  league_name : string;
  season : Z;
  players : list player
}.

(** [p.get('stats')] in a boolean context: a non-empty dictionary. *)
Definition stats_truthy (p : player) : bool :=
  match stats p with
  | Some m => negb (Nat.eqb (size m) 0)
  | None => false
  end.

(** [k in p.get('stats', {})] *)
Definition stats_has (k : string) (p : player) : bool :=
  match stats p with
  | Some m => bool_decide (is_Some (m !! k))
  | None => false
  end.

(** [p['stats']] for a player that passed the filter. *)
Definition stats_of (p : player) : gmap string Q := default ∅ (stats p).

(** ** The part of pandas the analysis uses

    A [DataFrame] built from a list of dictionaries has one row per
    dictionary and one column per key that occurs in some dictionary; a
    row lacking the key holds a missing value, which [sum] skips and which
    makes a product missing. *)

Definition DataFrame : Type := list (gmap string Q).

(** [df.empty]: no rows or no columns. *)
Definition df_empty (df : DataFrame) : bool :=
  forallb (fun r => Nat.eqb (size r) 0) df.

(** [c in df] *)
Definition has_col (c : string) (df : DataFrame) : bool :=
  existsb (fun r => bool_decide (is_Some (r !! c))) df.

Definition Qsum (l : list Q) : Q := foldr Qplus 0%Q l.

(** [df[c].sum()] *)
Definition col_sum (c : string) (df : DataFrame) : Q :=
  Qsum (omap (fun r => r !! c) df).

(** *** [Series.sum()] on a float column

    pandas replaces the missing values ([nan]) by 0 and calls numpy's
    [sum], which starts from 0 and adds the array by pairwise summation:
    fewer than eight elements are added in order; up to 128 elements are
    added into eight running sums, element [i] into sum [i mod 8], the
    eight sums are then added as a balanced tree and the elements after
    the last full group of eight are added in order; a longer array is
    split in two (the first part a multiple of eight) and the sums of the
    parts are added.  Every addition is rounded. *)

Definition is_nan (x : npfloat) : bool :=
  match x with
  | NaN => true
  | _ => false
  end.

(** [np.putmask(values, mask, 0)] *)
Definition fill_zero (x : npfloat) : npfloat :=
  if is_nan x then Finite 0 else x.

(** [r[j] += a[i + j]] for every full group of eight of [a]; the result
    holds the eight sums and the elements that are left. *)
Fixpoint add_groups (r a : list npfloat) : list npfloat * list npfloat :=
  match a with
  | a0 :: a1 :: a2 :: a3 :: a4 :: a5 :: a6 :: a7 :: a' =>
      add_groups (zip_with fadd64 r [a0; a1; a2; a3; a4; a5; a6; a7]) a'
  | _ => (r, a)
  end.

(** [((r[0] + r[1]) + (r[2] + r[3])) + ((r[4] + r[5]) + (r[6] + r[7]))] *)
Definition add_tree (r : list npfloat) : npfloat :=
  match r with
  | [r0; r1; r2; r3; r4; r5; r6; r7] =>
      fadd64 (fadd64 (fadd64 r0 r1) (fadd64 r2 r3))
             (fadd64 (fadd64 r4 r5) (fadd64 r6 r7))
  | _ => foldl fadd64 (Finite 0) r
  end.

(** The recursion halves the array; [fuel] bounds its depth and the
    length of the array is always enough
    ([pairwise_sum_fuel] in the properties). *)
Fixpoint pairwise_sum (fuel : nat) (a : list npfloat) : npfloat :=
  let n := length a in
  if (n <? 8)%nat then foldl fadd64 (Finite 0) a
  else if (n <=? 128)%nat then
    let '(r, rest) := add_groups (take 8 a) (drop 8 a) in
    foldl fadd64 (add_tree r) rest
  else
    match fuel with
    | O => foldl fadd64 (Finite 0) a
    | S fuel =>
        let n2 := (n / 2 - (n / 2) mod 8)%nat in
        fadd64 (pairwise_sum fuel (take n2 a)) (pairwise_sum fuel (drop n2 a))
    end.

Definition fsum (l : list npfloat) : npfloat :=
  let values := fill_zero <$> l in
  fadd64 (Finite 0) (pairwise_sum (length values) values).

(** The float column [c] of a frame: [nan] where the row lacks [c]. *)
Definition float_col (c : string) (df : DataFrame) : list npfloat :=
  (fun r => from_option b64 NaN (r !! c)) <$> df.

(** [df[c].sum()] on the float column [c] *)
Definition col_fsum (c : string) (df : DataFrame) : npfloat :=
  fsum (float_col c df).

(** [(df[a] * df[b]).sum()] on float columns *)
Definition col_prod_fsum (a b : string) (df : DataFrame) : npfloat :=
  fsum (zip_with fmul64 (float_col a df) (float_col b df)).

(** [df[c].sum() if c in df else 0] *)
Definition col_total (c : string) (df : DataFrame) : Q :=
  if has_col c df then col_sum c df else 0%Q.

(** [league_avgs.get(k)] in a boolean context, with the value when it is
    truthy (present and non-zero). *)
Definition league_get (league_avgs : gmap string Q) (k : string) : option Q :=
  match league_avgs !! k with
  | Some b => if Qeq_bool b 0 then None else Some b
  | None => None
  end.

(** ** [TeamAnalyzer._get_roster_breakdown] *)

Definition _get_roster_breakdown (team : team_data) : gmap string Z :=
  foldl (fun positions p =>
           let pos := fantasy_position p in
           let positions :=
             match positions !! pos with
             | None => <[pos := 0]> positions
             | Some _ => positions
             end in
           <[pos := default 0 (positions !! pos) + 1]> positions)
        ∅ (players team).

(** ** [TeamAnalyzer._analyze_categories]

    The source repeats one block per category:
<<
    if league_avgs.get(k):
        x_rating = min(10, int(score) + 5)
        ratings[k] = max(1, x_rating)
>>
    [rate_category] is that block, with [score] a function of the baseline
    [league_avgs[k]]. *)

Definition rate_category (league_avgs : gmap string Q) (k : string)
    (score : Q → npfloat) (ratings : list (string * Z))
  : result (list (string * Z)) :=
  match league_get league_avgs k with
  | Some b =>
      i ← py_int (score b);
      let x_rating := Z.min 10 (i + 5) in
      mret (dict_set k (Z.max 1 x_rating) ratings)
  | None => mret ratings
  end.

(** [(total / baseline) * 5] *)
Definition counting_score (total : Q) (b : Q) : npfloat :=
  fmul (fdiv (Finite total) (Finite b)) (Finite 5).

(** [(diff / spread) * 5] on floats; [spread] is the decimal literal of
    the source. *)
Definition rate_score (diff : npfloat) (spread : Q) : npfloat :=
  fmul64 (fdiv64 diff (b64 spread)) (Finite 5).

Definition batters_of (team : team_data) : list player :=
  filter (fun p => stats_truthy p && stats_has "batting_avg" p = true)
         (players team).

Definition pitchers_of (team : team_data) : list player :=
  filter (fun p => stats_truthy p && stats_has "era" p = true)
         (players team).

(** Weighted batting average of the batters' frame. *)
Definition team_avg_of (batters_df : DataFrame) : npfloat :=
  if has_col "plate_appearances" batters_df && has_col "batting_avg" batters_df
  then fdiv64 (col_prod_fsum "batting_avg" "plate_appearances" batters_df)
              (col_fsum "plate_appearances" batters_df)
  else Finite 0.

(** Innings-weighted ERA / WHIP of the pitchers' frame. *)
Definition team_rate_of (c : string) (pitchers_df : DataFrame) : npfloat :=
  if has_col "innings_pitched" pitchers_df then
    if has_col c pitchers_df
    then fdiv64 (col_prod_fsum c "innings_pitched" pitchers_df)
                (col_fsum "innings_pitched" pitchers_df)
    else Finite 0
  else Finite 0.

Definition rate_batting (batters_df : DataFrame) (league_avgs : gmap string Q)
    (ratings : list (string * Z)) : result (list (string * Z)) :=
  let home_runs := col_total "home_runs" batters_df in
  let rbi := col_total "rbi" batters_df in
  let stolen_bases := col_total "stolen_bases" batters_df in
  let team_avg := team_avg_of batters_df in
  ratings ← rate_category league_avgs "home_runs"
              (counting_score home_runs) ratings;
  ratings ← rate_category league_avgs "rbi"
              (counting_score rbi) ratings;
  ratings ← rate_category league_avgs "stolen_bases"
              (counting_score stolen_bases) ratings;
  rate_category league_avgs "batting_avg"
    (fun b => let avg_diff := fsub64 team_avg (b64 b) in
              rate_score avg_diff (30 # 1000)) ratings.

Definition rate_pitching (pitchers_df : DataFrame) (league_avgs : gmap string Q)
    (ratings : list (string * Z)) : result (list (string * Z)) :=
  let team_era := team_rate_of "era" pitchers_df in
  let team_whip := team_rate_of "whip" pitchers_df in
  let wins := col_total "wins" pitchers_df in
  let saves := col_total "saves" pitchers_df in
  let strikeouts := col_total "strikeouts" pitchers_df in
  ratings ← rate_category league_avgs "era"
              (fun b => let era_diff := fsub64 (b64 b) team_era in
                        rate_score era_diff (50 # 100)) ratings;
  ratings ← rate_category league_avgs "whip"
              (fun b => let whip_diff := fsub64 (b64 b) team_whip in
                        rate_score whip_diff (10 # 100)) ratings;
  ratings ← rate_category league_avgs "wins"
              (counting_score wins) ratings;
  ratings ← rate_category league_avgs "saves"
              (counting_score saves) ratings;
  rate_category league_avgs "strikeouts"
    (counting_score strikeouts) ratings.

(** [league_avgs] is what [self._get_league_averages(team_data['season'])]
    returned (a database query, possibly the empty dictionary). *)
Definition _analyze_categories (team : team_data)
    (league_avgs : gmap string Q) : result (list (string * Z)) :=
  let batters := batters_of team in
  let pitchers := pitchers_of team in
  let batters_df : DataFrame := stats_of <$> batters in
  let pitchers_df : DataFrame := stats_of <$> pitchers in
  let ratings := [] in
  ratings ← (if negb (df_empty batters_df)
             then rate_batting batters_df league_avgs ratings
             else mret ratings);
  ratings ← (if negb (df_empty pitchers_df)
             then rate_pitching pitchers_df league_avgs ratings
             else mret ratings);
  mret ratings.

(** ** [TeamAnalyzer._generate_recommendations] *)

Record analysis : Type := {
  a_team_id : Z;
  a_team_name : string;
  a_league_name : string;
  roster_breakdown : gmap string Z;
  category_analysis : list (string * Z);
  team_strengths : list string;
  team_weaknesses : list string;
  recommended_actions : list string
}.

(** [analysis['recommended_actions'] = recs] *)
Definition set_recommended_actions (recs : list string) (a : analysis)
  : analysis :=
  {| a_team_id := a_team_id a;
     a_team_name := a_team_name a;
     a_league_name := a_league_name a;
     roster_breakdown := roster_breakdown a;
     category_analysis := category_analysis a;
     team_strengths := team_strengths a;
     team_weaknesses := team_weaknesses a;
     recommended_actions := recs |}.

Definition rec_outfielders : string := "Need to add more outfielders".
Definition rec_relievers : string := "Add more relievers to compete in saves".
Definition rec_speed : string :=
  "Target speed players to improve stolen bases category".
Definition rec_closers : string :=
  "Add closers to improve in the saves category".
Definition rec_ratios : string :=
  "Consider streaming only high-quality pitchers to improve ratios".
Definition rec_average : string :=
  "Look for high-average hitters to improve batting average".
Definition rec_trade_strengths : string :=
  "Consider trading from your strengths to address weaknesses".
Definition rec_pitching_for_hitting : string :=
  "Consider trading pitching for hitting help".
Definition rec_hitting_for_pitching : string :=
  "Consider trading hitting for pitching help".

Definition pitching_cats : list string :=
  ["era"; "whip"; "strikeouts"; "wins"; "saves"].
Definition hitting_cats : list string :=
  ["batting_avg"; "home_runs"; "rbi"; "stolen_bases"].

(** [k in l] on a list of strings *)
Definition str_in (k : string) (l : list string) : bool :=
  existsb (String.eqb k) l.

(** [k in d and d[k] < n] *)
Definition count_below (d : gmap string Z) (k : string) (n : Z) : bool :=
  match d !! k with
  | Some c => c <? n
  | None => false
  end.

(** [recommendations.append(s)] when the rule's condition holds *)
Definition append_if (c : bool) (s : string) (recommendations : list string)
  : list string :=
  if c then recommendations ++ [s] else recommendations.

Definition _generate_recommendations (a : analysis) : list string :=
  let recommendations := [] in
  let recommendations :=
    append_if (count_below (roster_breakdown a) "OF" 3)
      rec_outfielders recommendations in
  let recommendations :=
    append_if (count_below (roster_breakdown a) "RP" 2)
      rec_relievers recommendations in
  let recommendations :=
    append_if (str_in "stolen_bases" (team_weaknesses a))
      rec_speed recommendations in
  let recommendations :=
    append_if (str_in "saves" (team_weaknesses a))
      rec_closers recommendations in
  let recommendations :=
    append_if (str_in "era" (team_weaknesses a)
               && str_in "whip" (team_weaknesses a))
      rec_ratios recommendations in
  let recommendations :=
    append_if (str_in "batting_avg" (team_weaknesses a))
      rec_average recommendations in
  let recommendations :=
    append_if (Z.of_nat (length (team_weaknesses a)) + 2
               <? Z.of_nat (length (team_strengths a)))
      rec_trade_strengths recommendations in
  let pitching_strengths :=
    List.filter (fun cat => str_in cat pitching_cats) (team_strengths a) in
  let hitting_strengths :=
    List.filter (fun cat => str_in cat hitting_cats) (team_strengths a) in
  let pitching_weaknesses :=
    List.filter (fun cat => str_in cat pitching_cats) (team_weaknesses a) in
  let hitting_weaknesses :=
    List.filter (fun cat => str_in cat hitting_cats) (team_weaknesses a) in
  if (3 <=? length pitching_strengths)%nat && (2 <=? length hitting_weaknesses)%nat
  then recommendations ++ [rec_pitching_for_hitting]
  else if (3 <=? length hitting_strengths)%nat
          && (2 <=? length pitching_weaknesses)%nat
  then recommendations ++ [rec_hitting_for_pitching]
  else recommendations.

(** ** [TeamAnalyzer.analyze_team]

    [roster] is the result of [self.team_manager.get_team_roster(team_id)]
    ([None] when the team is unknown); the function returns [None] for it
    and otherwise the analysis, unless rating a category raised. *)

(** The loop that fills [team_strengths] and [team_weaknesses]. *)
Definition classify (ratings : list (string * Z)) : list string * list string :=
  foldl (fun '(strengths, weaknesses) '(category, rating) =>
           if 8 <=? rating then (strengths ++ [category], weaknesses)
           else if rating <=? 4 then (strengths, weaknesses ++ [category])
           else (strengths, weaknesses))
        ([], []) ratings.

Definition analyze_team (team_id : Z) (roster : option team_data)
    (league_avgs : gmap string Q) : result (option analysis) :=
  match roster with
  | None => mret None
  | Some team =>
      let breakdown := _get_roster_breakdown team in
      ratings ← _analyze_categories team league_avgs;
      let '(strengths, weaknesses) := classify ratings in
      let a := {| a_team_id := team_id;
                  a_team_name := team_name team;
                  a_league_name := league_name team;
                  roster_breakdown := breakdown;
                  category_analysis := ratings;
                  team_strengths := strengths;
                  team_weaknesses := weaknesses;
                  recommended_actions := [] |} in
      mret (Some (set_recommended_actions (_generate_recommendations a) a))
  end.

(** ** [NFBCManualImporter.project_team_standings]

    The database is represented by what the queries return: the teams of
    the league in the order of the [teams] dictionary, and for every team
    the rows of its active batters and pitchers, each with the result of
    [cursor.fetchone()] on its latest stat line ([None]: no row; a column
    may be NULL). *)

Record bat_row : Type := {
  batting_avg : option Q;
  home_runs : option Q;
  runs : option Q;
  rbi : option Q;
  stolen_bases : option Q
}.

Record pit_row : Type := {
  era : option Q;
  whip : option Q;
  strikeouts : option Q;
  wins : option Q;
  saves : option Q
}.

Record league_team : Type := {
  lt_team_id : Z;
  lt_team_name : string;
  lt_batters : list (option bat_row);
  lt_pitchers : list (option pit_row)
}.

(** [results[team_name]]: the two inner dictionaries have fixed keys. *)
Record team_raw : Type := {
  raw_avg : Q; raw_hr : Q; raw_r : Q; raw_rbi : Q; raw_sb : Q;
  raw_era : Q; raw_whip : Q; raw_k : Q; raw_w : Q; raw_sv : Q
}.

Definition raw_init : team_raw :=
  {| raw_avg := 0; raw_hr := 0; raw_r := 0; raw_rbi := 0; raw_sb := 0;
     raw_era := 0; raw_whip := 0; raw_k := 0; raw_w := 0; raw_sv := 0 |}.

Inductive category : Set :=
  | Avg | Hr | R | Rbi | Sb | Era | Whip | K | W | Sv.

Definition cat_name (c : category) : string :=
  match c with
  | Avg => "avg" | Hr => "hr" | R => "r" | Rbi => "rbi" | Sb => "sb"
  | Era => "era" | Whip => "whip" | K => "k" | W => "w" | Sv => "sv"
  end.

(** [results[t][stat_type][cat]] once [results[t]] is at hand *)
Definition raw_value (c : category) (s : team_raw) : Q :=
  match c with
  | Avg => raw_avg s | Hr => raw_hr s | R => raw_r s | Rbi => raw_rbi s
  | Sb => raw_sb s | Era => raw_era s | Whip => raw_whip s | K => raw_k s
  | W => raw_w s | Sv => raw_sv s
  end.

Definition categories : list (string * list category) :=
  [("batting", [Avg; Hr; R; Rbi; Sb]); ("pitching", [Era; Whip; K; W; Sv])].

(** [x or 0] *)
Definition or_0 (x : option Q) : Q :=
  match x with
  | Some v => if Qeq_bool v 0 then 0%Q else v
  | None => 0%Q
  end.

Definition add_batting (s : team_raw) (row : bat_row) : team_raw :=
  {| raw_avg := raw_avg s + or_0 (batting_avg row);
     raw_hr := raw_hr s + or_0 (home_runs row);
     raw_r := raw_r s + or_0 (runs row);
     raw_rbi := raw_rbi s + or_0 (rbi row);
     raw_sb := raw_sb s + or_0 (stolen_bases row);
     raw_era := raw_era s; raw_whip := raw_whip s; raw_k := raw_k s;
     raw_w := raw_w s; raw_sv := raw_sv s |}.

Definition add_pitching (s : team_raw) (row : pit_row) : team_raw :=
  {| raw_avg := raw_avg s; raw_hr := raw_hr s; raw_r := raw_r s;
     raw_rbi := raw_rbi s; raw_sb := raw_sb s;
     raw_era := raw_era s + or_0 (era row);
     raw_whip := raw_whip s + or_0 (whip row);
     raw_k := raw_k s + or_0 (strikeouts row);
     raw_w := raw_w s + or_0 (wins row);
     raw_sv := raw_sv s + or_0 (saves row) |}.

Definition with_avg (v : Q) (s : team_raw) : team_raw :=
  {| raw_avg := v; raw_hr := raw_hr s; raw_r := raw_r s;
     raw_rbi := raw_rbi s; raw_sb := raw_sb s;
     raw_era := raw_era s; raw_whip := raw_whip s; raw_k := raw_k s;
     raw_w := raw_w s; raw_sv := raw_sv s |}.

Definition with_era (v : Q) (s : team_raw) : team_raw :=
  {| raw_avg := raw_avg s; raw_hr := raw_hr s; raw_r := raw_r s;
     raw_rbi := raw_rbi s; raw_sb := raw_sb s;
     raw_era := v; raw_whip := raw_whip s; raw_k := raw_k s;
     raw_w := raw_w s; raw_sv := raw_sv s |}.

Definition with_whip (v : Q) (s : team_raw) : team_raw :=
  {| raw_avg := raw_avg s; raw_hr := raw_hr s; raw_r := raw_r s;
     raw_rbi := raw_rbi s; raw_sb := raw_sb s;
     raw_era := raw_era s; raw_whip := v; raw_k := raw_k s;
     raw_w := raw_w s; raw_sv := raw_sv s |}.

(** [d[k]] *)
Definition dict_at {V} (k : string) (d : list (string * V)) : result V :=
  match dict_get k d with
  | Some v => Ok v
  | None => Raise KeyError
  end.

(** [m[k]] on a [gmap] *)
Definition map_at {V} (k : string) (m : gmap string V) : result V :=
  match m !! k with
  | Some v => Ok v
  | None => Raise KeyError
  end.

(** Python's [a / n] for an integer [n]. *)
Definition py_div (a : Q) (n : Z) : result Q :=
  if n =? 0 then Raise ZeroDivisionError else Ok (a / inject_Z n)%Q.

(** A loop whose body may raise. *)
Fixpoint foldlM {A B} (f : A → B → result A) (a : A) (l : list B) : result A :=
  match l with
  | [] => Ok a
  | x :: l' => a' ← f a x; foldlM f a' l'
  end.

Fixpoint mapM_result {A B} (f : A → result B) (l : list A) : result (list B) :=
  match l with
  | [] => Ok []
  | x :: l' => y ← f x; ys ← mapM_result f l'; mret (y :: ys)
  end.

(** [enumerate(l, start)] *)
Fixpoint enumerate {A} (start : Z) (l : list A) : list (Z * A) :=
  match l with
  | [] => []
  | x :: l' => (start, x) :: enumerate (start + 1) l'
  end.

(** *** [sorted(l, key=..., reverse=...)]

    Python computes every key first, then sorts stably; with
    [reverse=True] the order is descending and elements with equal keys
    still keep their original order. *)

Definition goes_before (reverse : bool) (a b : Q) : bool :=
  if reverse then Qle_bool b a else Qle_bool a b.

Fixpoint insert_sorted {A} (reverse : bool) (x : Q * A) (l : list (Q * A))
  : list (Q * A) :=
  match l with
  | [] => [x]
  | y :: l' =>
      if goes_before reverse x.1 y.1 then x :: y :: l'
      else y :: insert_sorted reverse x l'
  end.

Definition stable_sort {A} (reverse : bool) (l : list (Q * A)) : list (Q * A) :=
  foldr (insert_sorted reverse) [] l.

Definition py_sorted {A} (key : A → result Q) (reverse : bool) (l : list A)
  : result (list A) :=
  decorated ← mapM_result (fun x => kx ← key x; mret (kx, x)) l;
  mret ((stable_sort reverse decorated).*2).

(** *** The three phases of the function *)

(** [results = {team_name: {...zeros...} for team_name in teams.values()}] *)
Definition init_results (names : list string) : list (string * team_raw) :=
  foldl (fun d n => dict_set n raw_init d) [] names.

(** [rankings = {team_name: {'total': 0} for team_name in teams.values()}] *)
Definition init_rankings (names : list string)
  : list (string * gmap string Z) :=
  foldl (fun d n => dict_set n {[ "total" := 0 ]} d) [] names.

(** One iteration of [for team_id, team_name in teams.items()]. *)
Definition process_team (results : list (string * team_raw)) (t : league_team)
  : result (list (string * team_raw)) :=
  let team_name := lt_team_name t in
  let batters := lt_batters t in
  results ← foldlM (fun results stats =>
                      match stats with
                      | Some row =>
                          s ← dict_at team_name results;
                          mret (dict_set team_name (add_batting s row) results)
                      | None => mret results
                      end) results batters;
  results ← (if 0 <? Z.of_nat (length batters) then
               s ← dict_at team_name results;
               a ← py_div (raw_avg s) (Z.of_nat (length batters));
               mret (dict_set team_name (with_avg a s) results)
             else mret results);
  let pitchers := lt_pitchers t in
  results ← foldlM (fun results stats =>
                      match stats with
                      | Some row =>
                          s ← dict_at team_name results;
                          mret (dict_set team_name (add_pitching s row) results)
                      | None => mret results
                      end) results pitchers;
  if 0 <? Z.of_nat (length pitchers) then
    s ← dict_at team_name results;
    e ← py_div (raw_era s) (Z.of_nat (length pitchers));
    let s := with_era e s in
    wh ← py_div (raw_whip s) (Z.of_nat (length pitchers));
    mret (dict_set team_name (with_whip wh s) results)
  else mret results.

(** [cat in ['era', 'whip']] *)
Definition lower_is_better (c : category) : bool :=
  match c with
  | Era | Whip => true
  | _ => false
  end.

(** The body of [for i, team_name in enumerate(sorted_teams, 1)]. *)
Definition assign_points (cat : string)
    (rankings : list (string * gmap string Z)) (it : Z * string)
  : result (list (string * gmap string Z)) :=
  let '(i, team_name) := it in
  rk ← dict_at team_name rankings;
  let rk := match rk !! cat with
            | None => <[cat := 0]> rk
            | Some _ => rk
            end in
  let rk := <[cat := i]> rk in
  total ← map_at "total" rk;
  mret (dict_set team_name (<["total" := total + i]> rk) rankings).

(** The body of [for cat in cats]. *)
Definition rank_category (results : list (string * team_raw))
    (names : list string) (rankings : list (string * gmap string Z))
    (c : category) : result (list (string * gmap string Z)) :=
  let key := fun t => s ← dict_at t results; mret (raw_value c s) in
  sorted_teams ← (if lower_is_better c
                  then py_sorted key false names
                  else py_sorted key true names);
  foldlM (assign_points (cat_name c)) rankings (enumerate 1 sorted_teams).

Record standings : Type := {
  raw_stats : list (string * team_raw);
  rankings_of : list (string * gmap string Z);
  final_standings : list (string * gmap string Z)
}.

(** The body of the [try] block once [teams] is known to be non-empty. *)
Definition standings_body (teams : list league_team) : result standings :=
  let names := lt_team_name <$> teams in
  let results := init_results names in
  results ← foldlM process_team results teams;
  let rankings := init_rankings names in
  rankings ← foldlM (fun rankings '(stat_type, cats) =>
                       foldlM (rank_category results names) rankings cats)
                    rankings categories;
  final ← py_sorted (fun x : string * gmap string Z =>
                       total ← map_at "total" x.2;
                       mret (inject_Z total))
                    true rankings;
  mret {| raw_stats := results;
          rankings_of := rankings;
          final_standings := final |}.

(** [None] is the empty dictionary the function returns when the league
    has no team and when anything raised inside the [try] block. *)
Definition project_team_standings (teams : list league_team)
  : option standings :=
  match teams with
  | [] => None
  | _ =>
      match standings_body teams with
      | Ok s => Some s
      | Raise _ => None
      end
  end.

(** [rankings[team][cat]] in the returned standings *)
Definition rank_of (s : standings) (team : string) (c : category)
  : option Z :=
  rk ← dict_get team (rankings_of s); rk !! cat_name c.

(** ** [TeamAnalyzer._get_league_averages]

    The two aggregate queries are represented by what [execute_query]
    gives back: it re-raises any database error, and [fetchone] returns
    one row whose columns are NULL ([None]) when the season has no stat
    line, or no row at all. *)








(** ** [LeagueCsvImportTool.project_standings]

    The button handler of the import tool.  [teams] stands for the league
    the entered id selects in the database; the result is what the user
    gets to see: a message box, or the window with the standings table,
    one row [[team_name, total, avg, hr, ..., sv]] per item of the final
    standings ([Failed]: the [except] branch, an error box). *)





(** ** [DataVisualizer.compare_teams]

    The data of the comparison heatmap: one dictionary per team analysis,
    with the team's name under ['Team'] and, for every category compared,
    the team's rating, or 0 where the team has none.  Without team data
    nothing is compared ([None]); without categories those of the first
    team are taken. *)




(** ** [DataVisualizer._wrap_text]

    A text is a string of characters with code points below 256 and its
    length the number of its characters. *)

(** [c.isspace()] *)
Definition is_space (c : Ascii.ascii) : bool :=
  let n := Ascii.nat_of_ascii c in
  ((9 <=? n) && (n <=? 13) || (28 <=? n) && (n <=? 32)
   || (n =? 133) || (n =? 160))%nat.

(** [text.split()]: the maximal runs of characters that are not
    whitespace; [word] is the run being read. *)
Fixpoint split_from (word text : string) : list string :=
  match text with
  | EmptyString => if String.eqb word "" then [] else [word]
  | String c text' =>
      if is_space c
      then (if String.eqb word "" then split_from "" text'
            else word :: split_from "" text')
      else split_from (word +:+ String c "") text'
  end.

Definition split (text : string) : list string := split_from "" text.

(** [sep.join(l)] *)
Fixpoint join (sep : string) (l : list string) : string :=
  match l with
  | [] => ""
  | [x] => x
  | x :: l' => x +:+ sep +:+ join sep l'
  end.

Definition newline : string := String (Ascii.ascii_of_nat 10) "".

(** The body of [for word in words]. *)
Definition wrap_step (width : Z) (state : list string * list string)
    (word : string) : list string * list string :=
  let '(lines, current_line) := state in
  if Z.of_nat (String.length (join " " (current_line ++ [word]))) <=? width
  then (lines, current_line ++ [word])
  else (lines ++ [join " " current_line], [word]).

Definition _wrap_text (text : string) (width : Z) : string :=
  let words := split text in
  let '(lines, current_line) := foldl (wrap_step width) ([], []) words in
  let lines :=
    match current_line with
    | [] => lines
    | _ => lines ++ [join " " current_line]
    end in
  join newline lines.

(** * Vocabulary of the specification *)

(** ** Category ratings *)

(** [clamp(1, 10, i + 5)] *)
Definition clamp_rating (i : Z) : Z := Z.max 1 (Z.min 10 (i + 5)).

Definition rating_ok (kv : string * Z) : Prop := 1 ≤ kv.2 ≤ 10.

(** The two frames [_analyze_categories] builds from a roster. *)
Definition batters_df (team : team_data) : DataFrame :=
  stats_of <$> batters_of team.
Definition pitchers_df (team : team_data) : DataFrame :=
  stats_of <$> pitchers_of team.

Definition counting_categories : list string :=
  ["home_runs"; "rbi"; "stolen_bases"; "wins"; "saves"; "strikeouts"].
Definition rate_categories : list string := ["batting_avg"; "era"; "whip"].

(** The frame a category is computed from. *)
Definition category_frame (team : team_data) (k : string) : option DataFrame :=
  if str_in k hitting_cats then Some (batters_df team)
  else if str_in k pitching_cats then Some (pitchers_df team)
  else None.

(** The team's aggregated total of a counting category. *)
Definition team_total (team : team_data) (k : string) : Q :=
  col_total k (default [] (category_frame team k)).

(** The team's weighted rate of a rate category. *)
Definition team_rate (team : team_data) (k : string) : npfloat :=
  if String.eqb k "batting_avg" then team_avg_of (batters_df team)
  else team_rate_of k (pitchers_df team).

(** The spread constant of a rate category. *)
Definition spread (k : string) : Q :=
  if String.eqb k "batting_avg" then 30 # 1000
  else if String.eqb k "era" then 50 # 100
  else 10 # 100.

(** The signed deviation [d] of a rate category as the source computes
    it, in binary64: team minus baseline where higher is better, baseline
    minus team where lower is better. *)
Definition deviation (k : string) (rate : npfloat) (b : Q) : npfloat :=
  if String.eqb k "batting_avg" then fsub64 rate (b64 b)
  else fsub64 (b64 b) rate.

(** [(d / s) * 5] in binary64: the quotient by the float of the spread
    and the product by 5 are each rounded. *)
Definition scaled_deviation (k : string) (rate : npfloat) (b : Q) : npfloat :=
  fmul64 (fdiv64 (deviation k rate b) (b64 (spread k))) (Finite 5).

(** [(d / s) * 5] in exact arithmetic, for a team rate [rate]. *)
Definition exact_scaled_deviation (k : string) (rate b : Q) : Q :=
  ((if String.eqb k "batting_avg" then rate - b else b - rate)
   / spread k * 5)%Q.

(** The value handed to [int(...)] for category [k] and baseline [b]. *)
Definition category_score (team : team_data) (k : string) (b : Q) : npfloat :=
  if str_in k counting_categories then counting_score (team_total team k) b
  else scaled_deviation k (team_rate team k) b.

(** What a run that does not raise leaves in [ratings[k]]. *)
Definition expected_rating (team : team_data) (league_avgs : gmap string Q)
    (k : string) : option Z :=
  match category_frame team k with
  | Some df =>
      if df_empty df then None
      else match league_get league_avgs k with
           | Some b =>
               match py_int (category_score team k b) with
               | Ok i => Some (clamp_rating i)
               | Raise _ => None
               end
           | None => None
           end
  | None => None
  end.

(** A player that the batting (respectively pitching) filter keeps. *)
Definition has_stat (k : string) (p : player) : Prop :=
  ∃ m, stats p = Some m ∧ is_Some (m !! k).

Definition is_finite (x : npfloat) : bool :=
  match x with
  | Finite _ => true
  | _ => false
  end.

(** The rational a finite float is. *)
Definition finite_value (x : npfloat) : Q :=
  match x with
  | Finite q => q
  | _ => 0%Q
  end.

(** Every value the rate categories hand to [int(...)] is a finite
    float. *)
Definition rates_finite (team : team_data) (league_avgs : gmap string Q)
  : Prop :=
  ∀ k b, k ∈ rate_categories → league_get league_avgs k = Some b →
         is_finite (category_score team k b) = true.

(** ** Concrete rosters and baselines *)

Definition mk_player (pos : string) (l : list (string * Q)) : player :=
  {| fantasy_position := pos; stats := Some (list_to_map l) |}.

Definition mk_team (ps : list player) : team_data :=
  {| team_name := "Team A"; league_name := "League"; season := 2024;
     players := ps |}.

(** One batter with 40 home runs; league baseline 20 home runs. *)
Definition team_hr40 : team_data :=
  mk_team [mk_player "OF" [("batting_avg", 250 # 1000); ("home_runs", 40 # 1)]%Q].

(** One batter with 20 home runs: exactly the baseline. *)
Definition team_hr20 : team_data :=
  mk_team [mk_player "OF" [("batting_avg", 250 # 1000); ("home_runs", 20 # 1)]%Q].

Definition avgs_hr20 : gmap string Q := {[ "home_runs" := (20 # 1)%Q ]}.

(** One batter hitting .269 over 100 plate appearances; league average
    .270. *)
Definition team_avg269 : team_data :=
  mk_team [mk_player "OF" [("batting_avg", 269 # 1000);
                           ("plate_appearances", 100 # 1)]%Q].

Definition avgs_avg270 : gmap string Q := {[ "batting_avg" := (270 # 1000)%Q ]}.

(** One batter hitting [a] over 100 plate appearances, and a league
    batting average of [b]. *)
Definition team_avg (a : Q) : team_data :=
  mk_team [mk_player "OF" [("batting_avg", a);
                           ("plate_appearances", 100 # 1)]%Q].

Definition avgs_avg (b : Q) : gmap string Q := {[ "batting_avg" := b ]}.

(** A team exactly at the league batting average. *)
Definition team_avg270 : team_data := team_avg (270 # 1000).

(** One pitcher with an ERA of 4.0 over 100 innings; league ERA 4.1. *)
Definition team_era40 : team_data :=
  mk_team [mk_player "SP" [("era", 4 # 1); ("innings_pitched", 100 # 1)]%Q].

Definition avgs_era41 : gmap string Q := {[ "era" := (41 # 10)%Q ]}.

(** One batter who has not come to the plate yet. *)
Definition team_no_pa : team_data :=
  mk_team [mk_player "OF" [("batting_avg", 250 # 1000);
                           ("plate_appearances", 0 # 1);
                           ("home_runs", 0 # 1)]%Q].

(** One pitcher who has not pitched an inning yet. *)
Definition team_no_innings : team_data :=
  mk_team [mk_player "SP" [("era", 350 # 100); ("whip", 120 # 100);
                           ("innings_pitched", 0 # 1); ("wins", 0 # 1)]%Q].

Definition avgs_era4 : gmap string Q := {[ "era" := (4 # 1)%Q ]}.

(** ** Recommendations *)

(** The number of roster slots of a position in an analysis. *)
Definition slots (a : analysis) (pos : string) : Z :=
  default 0 (roster_breakdown a !! pos).

(** [x] and [y] both occur in [l], [x] before [y]. *)
Definition in_order (x y : string) (l : list string) : Prop :=
  ∃ l1 l2 l3, l = l1 ++ x :: l2 ++ y :: l3.


(** The analysis [analyze_team] builds for a roster without players,
    before and after the recommendations are stored (both are the same). *)
Definition empty_roster_analysis : analysis :=
  {| a_team_id := 1; a_team_name := "Team A"; a_league_name := "League";
     roster_breakdown := ∅; category_analysis := [];
     team_strengths := []; team_weaknesses := [];
     recommended_actions := [] |}.

(** An analysis with one outfielder and one reliever. *)
Definition thin_roster_analysis : analysis :=
  {| a_team_id := 1; a_team_name := "Team A"; a_league_name := "League";
     roster_breakdown := {[ "OF" := 1; "RP" := 1 ]}; category_analysis := [];
     team_strengths := []; team_weaknesses := [];
     recommended_actions := [] |}.

(** ** Rotisserie standings *)

Definition names_of (teams : list league_team) : list string :=
  lt_team_name <$> teams.

(** The raw statistics of one team, as a function of its rows and of the
    values [s] its entry of [results] holds when its iteration starts. *)
Definition bat_fold (s : team_raw) (rows : list (option bat_row)) : team_raw :=
  foldl (fun s r => match r with Some row => add_batting s row | None => s end)
        s rows.

Definition pit_fold (s : team_raw) (rows : list (option pit_row)) : team_raw :=
  foldl (fun s r => match r with Some row => add_pitching s row | None => s end)
        s rows.

Definition normalize_batting (n : nat) (s : team_raw) : team_raw :=
  if 0 <? Z.of_nat n then with_avg (raw_avg s / inject_Z (Z.of_nat n)) s else s.

Definition normalize_pitching (n : nat) (s : team_raw) : team_raw :=
  if 0 <? Z.of_nat n then
    let s := with_era (raw_era s / inject_Z (Z.of_nat n)) s in
    with_whip (raw_whip s / inject_Z (Z.of_nat n)) s
  else s.

Definition team_final (s : team_raw) (t : league_team) : team_raw :=
  let s := bat_fold s (lt_batters t) in
  let s := normalize_batting (length (lt_batters t)) s in
  let s := pit_fold s (lt_pitchers t) in
  normalize_pitching (length (lt_pitchers t)) s.

(** The sum of a column over roster entries; an entry without a stat row
    and a NULL column count as 0. *)
Definition rows_sum {row : Type} (col : row → option Q)
    (rows : list (option row)) : Q :=
  Qsum ((fun r => match r with Some x => or_0 (col x) | None => 0%Q end)
          <$> rows).

(** The simple average over all roster entries, 0 for an empty roster. *)
Definition rows_average {row : Type} (col : row → option Q)
    (rows : list (option row)) : Q :=
  match rows with
  | [] => 0%Q
  | _ => (rows_sum col rows / inject_Z (Z.of_nat (length rows)))%Q
  end.

(** [results[t][stat_type][cat]], 0 for a team that has no entry. *)
Definition team_value (results : list (string * team_raw)) (c : category)
    (t : string) : Q :=
  match dict_get t results with
  | Some s => raw_value c s
  | None => 0%Q
  end.

(** The teams in the order [rank_category] sorts them for category [c]. *)
Definition sorted_teams (results : list (string * team_raw)) (c : category)
    (names : list string) : list string :=
  (stable_sort (negb (lower_is_better c))
     ((fun t => (team_value results c t, t)) <$> names)).*2.

(** The number the enumeration pairs with the last occurrence of [n]. *)
Fixpoint last_index (n : string) (items : list (Z * string)) : option Z :=
  match items with
  | [] => None
  | (i, m) :: rest =>
      match last_index n rest with
      | Some j => Some j
      | None => if String.eqb m n then Some i else None
      end
  end.

Definition Zsum (l : list Z) : Z := foldr Z.add 0 l.

(** The sum of all teams' ranks in one category. *)
Definition sum_ranks (s : standings) (c : category) (names : list string) : Z :=
  Zsum ((fun t => default 0 (rank_of s t c)) <$> names).

(** No two teams of the league have the same value in category [c]. *)
Definition no_ties (s : standings) (c : category) (names : list string) : Prop :=
  ∀ i j t1 t2,
    names !! i = Some t1 → names !! j = Some t2 → i ≠ j →
    ¬ (team_value (raw_stats s) c t1 == team_value (raw_stats s) c t2)%Q.

Definition all_categories : list category :=
  [Avg; Hr; R; Rbi; Sb; Era; Whip; K; W; Sv].

Definition has_total (kv : string * gmap string Z) : Prop :=
  is_Some (kv.2 !! "total").

(** Every team of [names] has an entry, and every entry a ['total']. *)
Definition rankings_ready (names : list string)
    (rankings : list (string * gmap string Z)) : Prop :=
  (∀ n, n ∈ names → is_Some (dict_get n rankings)) ∧
  Forall has_total rankings.

(** How the loop over [items] for the key [cat] changes the rankings:
    the last number paired with a team is stored under [cat], and the
    keys other than [cat] and ['total'] keep their values. *)
Definition points_assigned (cat : string) (items : list (Z * string))
    (rankings rankings' : list (string * gmap string Z)) : Prop :=
  ∀ n, match dict_get n rankings with
       | None => dict_get n rankings' = None
       | Some rk =>
           ∃ rk', dict_get n rankings' = Some rk' ∧
                  rk' !! cat = from_option Some (rk !! cat) (last_index n items) ∧
                  ∀ c', c' ≠ cat → c' ≠ "total" → rk' !! c' = rk !! c'
       end.

(** ** Concrete leagues *)

Definition pitcher_line (e : Q) : option pit_row :=
  Some {| era := Some e; whip := Some (120 # 100)%Q;
          strikeouts := Some (100 # 1)%Q; wins := Some (10 # 1)%Q;
          saves := None |}.

(** Team A: ERA 3.00; Team B: ERA 4.50. *)
Definition league_ab : list league_team :=
  [ {| lt_team_id := 1; lt_team_name := "Team A";
       lt_batters := []; lt_pitchers := [pitcher_line (300 # 100)] |};
    {| lt_team_id := 2; lt_team_name := "Team B";
       lt_batters := [None]; lt_pitchers := [pitcher_line (450 # 100)] |} ].

(** The standings of that league. *)
Definition standings_ab : standings :=
  default {| raw_stats := []; rankings_of := []; final_standings := [] |}
          (project_team_standings league_ab).



(** ** More vocabulary: ratings, strengths and recommendations *)














(** ** League baselines *)



(** One batter hitting .300 over 100 plate appearances. *)
Definition team_avg300 : team_data :=
  mk_team [mk_player "OF" [("batting_avg", 300 # 1000);
                           ("plate_appearances", 100 # 1)]%Q].

(** ** The totals of the standings *)







(** A league of two teams without players. *)
Definition league_empty_rosters : list league_team :=
  [ {| lt_team_id := 1; lt_team_name := "Team A";
       lt_batters := []; lt_pitchers := [] |};
    {| lt_team_id := 2; lt_team_name := "Team B";
       lt_batters := []; lt_pitchers := [] |} ].

(** ** The comparison of teams *)




(** ** Wrapped text *)






(** * Properties *)

(** ** The error monad and ordered dictionaries *)

#[global] Arguments b64 : simpl never.
#[global] Arguments fround : simpl never.

Lemma bind_Ok {A B} (m : result A) (f : A → result B) (y : B) :
  (m ≫= f) = Ok y ↔ ∃ x, m = Ok x ∧ f x = Ok y.
Proof.
  destruct m as [a|e]; simpl; split.
  - intros H; exists a; auto.
  - intros (x & [= <-] & H); exact H.
  - discriminate.
  - intros (x & [=] & _).
Qed.

Ltac inv_bind H :=
  let x := fresh "x" in
  let Hx := fresh "Hx" in
  apply bind_Ok in H; destruct H as (x & Hx & H).

Lemma Ok_inj {A} (a b : A) : Ok a = Ok b → a = b.
Proof. congruence. Qed.

(** Case analysis on which literal key a string is. *)
Ltac case_key k :=
  repeat match goal with
         | |- context [String.eqb k ?s] =>
             destruct (String.eqb_spec k s) as [->|?]; simpl
         end.

Ltac inv_ok H :=
  unfold mret, result_ret in H; apply Ok_inj in H; try subst.

Lemma dict_get_set {V} (k k' : string) (v : V) (d : list (string * V)) :
  dict_get k' (dict_set k v d) =
  if String.eqb k' k then Some v else dict_get k' d.
Proof.
  induction d as [|[k0 v0] d IH]; simpl.
  - destruct (String.eqb k' k); reflexivity.
  - destruct (String.eqb_spec k k0) as [->|Hne]; simpl.
    + destruct (String.eqb k' k0); reflexivity.
    + rewrite IH. destruct (String.eqb_spec k' k0) as [->|Hne'].
      * destruct (String.eqb_spec k0 k); congruence.
      * reflexivity.
Qed.

Lemma dict_get_set_eq {V} (k : string) (v : V) (d : list (string * V)) :
  dict_get k (dict_set k v d) = Some v.
Proof. rewrite dict_get_set, String.eqb_refl. reflexivity. Qed.


Lemma dict_get_elem_of {V} (k : string) (v : V) (d : list (string * V)) :
  dict_get k d = Some v → (k, v) ∈ d.
Proof.
  induction d as [|[k0 v0] d IH]; simpl; [discriminate|].
  destruct (String.eqb_spec k k0) as [->|Hne].
  - intros [= ->]. left.
  - intros H. right. auto.
Qed.

Lemma dict_set_Forall {V} (P : string * V → Prop) (k : string) (v : V)
    (d : list (string * V)) :
  P (k, v) → Forall P d → Forall P (dict_set k v d).
Proof.
  intros Hv. induction 1 as [|[k0 v0] d H0 Hd IH]; simpl.
  - repeat constructor; exact Hv.
  - destruct (String.eqb k k0); constructor; auto.
Qed.

(** ** Summation of a float column *)

Lemma pairwise_sum_eq fuel a :
  pairwise_sum fuel a =
  let n := length a in
  if (n <? 8)%nat then foldl fadd64 (Finite 0) a
  else if (n <=? 128)%nat then
    let '(r, rest) := add_groups (take 8 a) (drop 8 a) in
    foldl fadd64 (add_tree r) rest
  else
    match fuel with
    | O => foldl fadd64 (Finite 0) a
    | S fuel =>
        let n2 := (n / 2 - (n / 2) mod 8)%nat in
        fadd64 (pairwise_sum fuel (take n2 a)) (pairwise_sum fuel (drop n2 a))
    end.
Proof. destruct fuel; reflexivity. Qed.

(** The result does not depend on the fuel once it covers the length of
    the array: the recursion always reaches arrays of at most 128
    elements. *)
Lemma pairwise_sum_fuel fuel1 :
  ∀ fuel2 a, (length a ≤ fuel1)%nat → (length a ≤ fuel2)%nat →
             pairwise_sum fuel1 a = pairwise_sum fuel2 a.
Proof.
  induction fuel1 as [|fuel1 IH]; intros fuel2 a H1 H2;
    rewrite (pairwise_sum_eq _ a), (pairwise_sum_eq fuel2 a); cbv zeta.
  - destruct a; [reflexivity|simpl in H1; lia].
  - destruct (length a <? 8)%nat eqn:E8; [reflexivity|].
    destruct (length a <=? 128)%nat eqn:E128; [reflexivity|].
    apply Nat.leb_gt in E128.
    destruct fuel2 as [|fuel2]; [lia|].
    set (n2 := (length a / 2 - (length a / 2) mod 8)%nat).
    assert (Hn2 : (0 < n2 < length a)%nat).
    { unfold n2.
      pose proof (Nat.mod_upper_bound (length a / 2) 8 ltac:(lia)).
      assert (length a / 2 < length a)%nat
        by (apply Nat.Div0.div_lt_upper_bound; lia).
      assert (64 ≤ length a / 2)%nat
        by (apply Nat.div_le_lower_bound; lia).
      lia. }
    f_equal; apply IH; rewrite ?length_take, ?length_drop; lia.
Qed.

(** ** Truncation and floor *)

Lemma Qtrunc_nonneg (q : Q) : (0 <= q)%Q → Qtrunc q = Qfloor q.
Proof.
  destruct q as [n d]. unfold Qle, Qtrunc, Qfloor; simpl. intros H.
  apply Z.quot_div_nonneg; lia.
Qed.

Lemma Qtrunc_opp (q : Q) : Qtrunc (- q) = - Qtrunc q.
Proof.
  destruct q as [n d]. unfold Qtrunc; simpl. apply Z.quot_opp_l. lia.
Qed.

Lemma Qtrunc_comp (p q : Q) : p == q → Qtrunc p = Qtrunc q.
Proof.
  intros H. destruct (Qlt_le_dec p 0) as [Hp|Hp].
  - assert (Hq : (0 <= - q)%Q) by (rewrite <- H; lra).
    assert (Hp' : (0 <= - p)%Q) by lra.
    apply Qtrunc_nonneg in Hq, Hp'.
    rewrite Qtrunc_opp in Hq, Hp'.
    assert (Qfloor (- p) = Qfloor (- q))
      by (apply Qfloor_comp; rewrite H; reflexivity).
    lia.
  - rewrite !Qtrunc_nonneg by (rewrite <- ?H; lra).
    apply Qfloor_comp, H.
Qed.

Lemma Qtrunc_inject_Z (z : Z) : Qtrunc (inject_Z z) = z.
Proof. unfold Qtrunc; simpl. apply Z.quot_1_r. Qed.

(** ** One rating block *)

Lemma clamp_rating_range (i : Z) : 1 ≤ clamp_rating i ≤ 10.
Proof. unfold clamp_rating. lia. Qed.

Lemma rate_category_get avgs k score rs rs' :
  rate_category avgs k score rs = Ok rs' →
  ∀ k', dict_get k' rs' =
        if String.eqb k' k then
          match league_get avgs k with
          | Some b =>
              match py_int (score b) with
              | Ok i => Some (clamp_rating i)
              | Raise _ => None
              end
          | None => dict_get k' rs
          end
        else dict_get k' rs.
Proof.
  unfold rate_category. intros H k'.
  destruct (league_get avgs k) as [b|].
  - inv_bind H. rewrite Hx. inv_ok H.
    rewrite dict_get_set. reflexivity.
  - inv_ok H. destruct (String.eqb k' k); reflexivity.
Qed.

Lemma rate_category_range avgs k score rs rs' :
  rate_category avgs k score rs = Ok rs' →
  Forall rating_ok rs → Forall rating_ok rs'.
Proof.
  unfold rate_category. intros H Hrs.
  destruct (league_get avgs k) as [b|].
  - inv_bind H. inv_ok H.
    apply dict_set_Forall; [|exact Hrs].
    unfold rating_ok; simpl. lia.
  - inv_ok H. exact Hrs.
Qed.

Lemma league_get_Some avgs k b :
  league_get avgs k = Some b ↔ avgs !! k = Some b ∧ ¬ (b == 0)%Q.
Proof.
  unfold league_get. destruct (avgs !! k) as [b'|];
    [|split; [discriminate | intros [? _]; discriminate]].
  destruct (Qeq_bool b' 0) eqn:E.
  - apply Qeq_bool_eq in E. split; [discriminate|].
    intros [Hb' Hb]. congruence.
  - apply Qeq_bool_neq in E. split.
    + intros Hb'. split; congruence.
    + intros [Hb' _]. congruence.
Qed.

(** ** The two halves of [_analyze_categories] *)

Lemma rate_batting_get df avgs rs rs' :
  rate_batting df avgs rs = Ok rs' →
  ∀ k, dict_get k rs' =
       if str_in k hitting_cats then
         match league_get avgs k with
         | Some b =>
             let score :=
               if String.eqb k "batting_avg"
               then rate_score (fsub64 (team_avg_of df) (b64 b)) (30 # 1000)
               else counting_score (col_total k df) b in
             match py_int score with
             | Ok i => Some (clamp_rating i)
             | Raise _ => None
             end
         | None => dict_get k rs
         end
       else dict_get k rs.
Proof.
  unfold rate_batting. intros H k.
  do 3 inv_bind H.
  rewrite (rate_category_get _ _ _ _ _ H).
  rewrite (rate_category_get _ _ _ _ _ Hx1).
  rewrite (rate_category_get _ _ _ _ _ Hx0).
  rewrite (rate_category_get _ _ _ _ _ Hx).
  unfold str_in, hitting_cats; simpl.
  destruct (String.eqb_spec k "batting_avg") as [->|_]; [reflexivity|].
  destruct (String.eqb_spec k "home_runs") as [->|_]; [reflexivity|].
  destruct (String.eqb_spec k "rbi") as [->|_]; [reflexivity|].
  destruct (String.eqb_spec k "stolen_bases") as [->|_]; reflexivity.
Qed.

Lemma rate_pitching_get df avgs rs rs' :
  rate_pitching df avgs rs = Ok rs' →
  ∀ k, dict_get k rs' =
       if str_in k pitching_cats then
         match league_get avgs k with
         | Some b =>
             let score :=
               if String.eqb k "era"
               then rate_score (fsub64 (b64 b) (team_rate_of k df)) (50 # 100)
               else if String.eqb k "whip"
               then rate_score (fsub64 (b64 b) (team_rate_of k df)) (10 # 100)
               else counting_score (col_total k df) b in
             match py_int score with
             | Ok i => Some (clamp_rating i)
             | Raise _ => None
             end
         | None => dict_get k rs
         end
       else dict_get k rs.
Proof.
  unfold rate_pitching. intros H k.
  do 4 inv_bind H.
  rewrite (rate_category_get _ _ _ _ _ H).
  rewrite (rate_category_get _ _ _ _ _ Hx2).
  rewrite (rate_category_get _ _ _ _ _ Hx1).
  rewrite (rate_category_get _ _ _ _ _ Hx0).
  rewrite (rate_category_get _ _ _ _ _ Hx).
  unfold str_in, pitching_cats; simpl.
  destruct (String.eqb_spec k "era") as [->|_]; [reflexivity|].
  destruct (String.eqb_spec k "whip") as [->|_]; [reflexivity|].
  destruct (String.eqb_spec k "strikeouts") as [->|_]; [reflexivity|].
  destruct (String.eqb_spec k "wins") as [->|_]; [reflexivity|].
  destruct (String.eqb_spec k "saves") as [->|_]; reflexivity.
Qed.

Lemma rate_batting_range df avgs rs rs' :
  rate_batting df avgs rs = Ok rs' →
  Forall rating_ok rs → Forall rating_ok rs'.
Proof.
  unfold rate_batting. intros H Hrs. do 3 inv_bind H.
  eauto using rate_category_range.
Qed.

Lemma rate_pitching_range df avgs rs rs' :
  rate_pitching df avgs rs = Ok rs' →
  Forall rating_ok rs → Forall rating_ok rs'.
Proof.
  unfold rate_pitching. intros H Hrs. do 4 inv_bind H.
  eauto 6 using rate_category_range.
Qed.

(** The run of [_analyze_categories] split at its two [if] blocks. *)
Lemma analyze_categories_inv team avgs rs :
  _analyze_categories team avgs = Ok rs →
  ∃ rs1,
    (if negb (df_empty (batters_df team))
     then rate_batting (batters_df team) avgs []
     else Ok []) = Ok rs1 ∧
    (if negb (df_empty (pitchers_df team))
     then rate_pitching (pitchers_df team) avgs rs1
     else Ok rs1) = Ok rs.
Proof.
  unfold _analyze_categories. intros H.
  inv_bind H. inv_bind H. inv_ok H. eauto.
Qed.

Lemma hitting_not_pitching k :
  str_in k hitting_cats = true → str_in k pitching_cats = false.
Proof.
  unfold str_in, hitting_cats, pitching_cats; simpl.
  case_key k; first [discriminate | intros _; reflexivity].
Qed.

(** Every entry of the returned dictionary, key by key. *)
Lemma analyze_categories_get team avgs rs k :
  _analyze_categories team avgs = Ok rs →
  dict_get k rs = expected_rating team avgs k.
Proof.
  intros H. apply analyze_categories_inv in H as (rs1 & Hb & Hp).
  assert (Hk1 : dict_get k rs1 =
                if str_in k hitting_cats then expected_rating team avgs k
                else None).
  { destruct (df_empty (batters_df team)) eqn:Eb; simpl in Hb.
    - inv_ok Hb. unfold expected_rating, category_frame.
      destruct (str_in k hitting_cats); [rewrite Eb|]; reflexivity.
    - rewrite (rate_batting_get _ _ _ _ Hb).
      unfold expected_rating, category_frame.
      destruct (str_in k hitting_cats) eqn:Ek; [|reflexivity].
      rewrite Eb. destruct (league_get avgs k) as [b|]; [|reflexivity].
      unfold category_score, team_total, category_frame, team_rate, spread.
      rewrite Ek. simpl.
      revert Ek. unfold str_in, hitting_cats, counting_categories; simpl.
      case_key k; first [discriminate | reflexivity]. }
  destruct (df_empty (pitchers_df team)) eqn:Ep; simpl in Hp.
  - inv_ok Hp. rewrite Hk1. unfold expected_rating, category_frame.
    destruct (str_in k hitting_cats); [reflexivity|].
    destruct (str_in k pitching_cats); [rewrite Ep|]; reflexivity.
  - rewrite (rate_pitching_get _ _ _ _ Hp), Hk1.
    destruct (str_in k hitting_cats) eqn:Eh.
    + rewrite (hitting_not_pitching _ Eh). reflexivity.
    + unfold expected_rating, category_frame. rewrite Eh.
      destruct (str_in k pitching_cats) eqn:Ek; [|reflexivity].
      rewrite Ep. destruct (league_get avgs k) as [b|]; [|reflexivity].
      unfold category_score, team_total, category_frame, team_rate, spread.
      rewrite Eh, Ek. simpl.
      revert Ek. unfold str_in, pitching_cats, counting_categories; simpl.
      case_key k; first [discriminate | reflexivity].
Qed.

(** Whatever is emitted is a rating between 1 and 10. *)
Lemma ratings_in_range team avgs rs :
  _analyze_categories team avgs = Ok rs → Forall rating_ok rs.
Proof.
  intros H. apply analyze_categories_inv in H as (rs1 & Hb & Hp).
  assert (H1 : Forall rating_ok rs1).
  { destruct (df_empty (batters_df team)); simpl in Hb.
    - inv_ok Hb. constructor.
    - eapply rate_batting_range; [exact Hb|constructor]. }
  destruct (df_empty (pitchers_df team)); simpl in Hp.
  - inv_ok Hp. exact H1.
  - eapply rate_pitching_range; eauto.
Qed.

(** ** Scores of finite inputs *)

Lemma counting_score_finite (t b : Q) :
  ¬ (b == 0)%Q → counting_score t b = Finite (t / b * 5).
Proof.
  intros Hb. unfold counting_score; simpl.
  destruct (Qeq_bool b 0) eqn:E; [|reflexivity].
  apply Qeq_bool_eq in E. contradiction.
Qed.

Lemma str_in_elem_of (k : string) (l : list string) :
  str_in k l = true ↔ k ∈ l.
Proof.
  unfold str_in. induction l as [|x l IH]; simpl.
  - split; [discriminate|]. intros H. inversion H.
  - rewrite orb_true_iff, IH, elem_of_cons.
    destruct (String.eqb_spec k x); intuition congruence.
Qed.

(** What [ratings[k]] holds for a counting category. *)
Lemma counting_rating_get team avgs rs k b r :
  k ∈ counting_categories →
  _analyze_categories team avgs = Ok rs →
  dict_get k rs = Some r →
  avgs !! k = Some b →
  ¬ (b == 0)%Q ∧ r = clamp_rating (Qtrunc (team_total team k / b * 5)).
Proof.
  intros Hk Hrun Hget Hb.
  rewrite (analyze_categories_get _ _ _ _ Hrun) in Hget.
  unfold expected_rating in Hget.
  destruct (category_frame team k) as [df|]; [|discriminate].
  destruct (df_empty df); [discriminate|].
  destruct (league_get avgs k) as [b'|] eqn:Eb; [|discriminate].
  apply league_get_Some in Eb as [Eb Hnz].
  assert (b' = b) as -> by congruence.
  split; [exact Hnz|].
  unfold category_score in Hget.
  apply str_in_elem_of in Hk. rewrite Hk in Hget.
  rewrite counting_score_finite in Hget by exact Hnz.
  simpl in Hget. congruence.
Qed.

(** ** Counting categories *)

(** C6: for a counting category (whose statistics are counts, so the team
    total is not negative and the baseline is positive) with baseline [b]
    and team total [t], the rating stored in [ratings] is
    [clamp(1, 10, floor((t / b) * 5) + 5)]. *)
Theorem counting_rating_formula team avgs rs k b r :
  k ∈ counting_categories →
  _analyze_categories team avgs = Ok rs →
  dict_get k rs = Some r →
  avgs !! k = Some b →
  (0 <= team_total team k)%Q →
  (0 < b)%Q →
  r = Z.max 1 (Z.min 10 (Qfloor (team_total team k / b * 5) + 5)).
Proof.
  intros Hk Hrun Hget Hb Ht Hpos.
  destruct (counting_rating_get _ _ _ _ _ _ Hk Hrun Hget Hb) as [Hnz ->].
  unfold clamp_rating. rewrite Qtrunc_nonneg; [reflexivity|].
  apply Qmult_le_0_compat; [|lra].
  apply Qle_shift_div_l; [exact Hpos|]. lra.
Qed.

(** Baseline 20 home runs, team 40 home runs: the rating is 10. *)
Lemma counting_rating_formula_hr40 :
  _analyze_categories team_hr40 avgs_hr20 = Ok [("home_runs", 10)] ∧
  10 = Z.max 1 (Z.min 10
         (Qfloor (team_total team_hr40 "home_runs" / (20 # 1) * 5) + 5)).
Proof.
  split; [vm_compute; reflexivity|].
  apply (counting_rating_formula team_hr40 avgs_hr20 [("home_runs", 10)]
           "home_runs" (20 # 1) 10).
  - apply str_in_elem_of. vm_compute. reflexivity.
  - vm_compute. reflexivity.
  - vm_compute. reflexivity.
  - vm_compute. reflexivity.
  - vm_compute. discriminate.
  - vm_compute. reflexivity.
Defined.

(** What a counting category is rated at the baseline and at zero. *)
Lemma counting_rating_at_baseline team avgs rs k b r :
  k ∈ counting_categories →
  _analyze_categories team avgs = Ok rs →
  dict_get k rs = Some r →
  avgs !! k = Some b →
  ((team_total team k == b)%Q → r = 10) ∧
  ((team_total team k == 0)%Q → r = 5).
Proof.
  intros Hk Hrun Hget Hb.
  destruct (counting_rating_get _ _ _ _ _ _ Hk Hrun Hget Hb) as [Hnz ->].
  split; intros Ht.
  - assert (E : (team_total team k / b * 5 == inject_Z 5)%Q).
    { rewrite Ht. field. exact Hnz. }
    rewrite (Qtrunc_comp _ _ E), Qtrunc_inject_Z. reflexivity.
  - assert (E : (team_total team k / b * 5 == inject_Z 0)%Q).
    { rewrite Ht. field. exact Hnz. }
    rewrite (Qtrunc_comp _ _ E), Qtrunc_inject_Z. reflexivity.
Qed.


(** C2: a team with 20 home runs against a league baseline of 20 is rated
    10, not 5, and a team without a home run is rated 5, not less; the
    rate categories next to it do rate a team at the baseline 5 (a .270
    team against a .270 league). *)
Theorem baseline_team_rated_10 :
  (team_total team_hr20 "home_runs" == 20 # 1)%Q ∧
  _analyze_categories team_hr20 avgs_hr20 = Ok [("home_runs", 10)] ∧
  (team_total team_no_pa "home_runs" == 0)%Q ∧
  _analyze_categories team_no_pa avgs_hr20 = Ok [("home_runs", 5)] ∧
  _analyze_categories team_avg270 avgs_avg270 = Ok [("batting_avg", 5)].
Proof. vm_compute. auto 6. Qed.

(** ** Rate categories *)

Lemma rate_categories_cases (k : string) :
  k ∈ rate_categories → k = "batting_avg" ∨ k = "era" ∨ k = "whip".
Proof.
  unfold rate_categories. rewrite !elem_of_cons, elem_of_nil. tauto.
Qed.

Lemma Qtrunc_nonpos (q : Q) : (q <= 0)%Q → Qtrunc q = Qceiling q.
Proof.
  intros H. unfold Qceiling.
  rewrite <- (Qtrunc_nonneg (- q)) by lra.
  rewrite Qtrunc_opp. lia.
Qed.

(** Rounding and the arithmetic operations give a finite float only from
    finite floats. *)
Lemma fround_finite x : is_finite (fround x) = true → is_finite x = true.
Proof. destruct x; simpl; auto. Qed.

Lemma fsub_finite x y :
  is_finite (fsub x y) = true → is_finite x = true ∧ is_finite y = true.
Proof. destruct x, y; simpl; auto. Qed.

Lemma inf_of_sign_finite s : is_finite (inf_of_sign s) = false.
Proof. destruct s; reflexivity. Qed.

Lemma fdiv_finite x y : is_finite (fdiv x y) = true → is_finite x = true.
Proof.
  destruct x, y; simpl; auto; rewrite inf_of_sign_finite; auto.
Qed.

Lemma fmul_finite x y :
  is_finite (fmul x y) = true → is_finite x = true ∧ is_finite y = true.
Proof.
  destruct x, y; simpl; auto; rewrite ?inf_of_sign_finite; auto.
Qed.

Lemma is_finite_inv x : is_finite x = true → ∃ q, x = Finite q.
Proof. destruct x; [eauto|discriminate..]. Qed.

(** A finite scaled deviation comes from a finite team rate. *)
Lemma scaled_deviation_finite k x b :
  is_finite (scaled_deviation k x b) = true → is_finite x = true.
Proof.
  unfold scaled_deviation, fmul64, fdiv64. intros H.
  apply fround_finite, fmul_finite in H as [H _].
  apply fround_finite, fdiv_finite in H.
  unfold deviation, fsub64 in H.
  destruct (String.eqb k "batting_avg");
    apply fround_finite, fsub_finite in H; tauto.
Qed.

Lemma category_score_rate team k b :
  k ∈ rate_categories →
  category_score team k b = scaled_deviation k (team_rate team k) b.
Proof.
  intros Hk. apply rate_categories_cases in Hk as [-> | [-> | ->]];
    reflexivity.
Qed.

(** What [ratings[k]] holds for a rate category. *)
Lemma rate_rating_get team avgs rs k b r :
  k ∈ rate_categories →
  _analyze_categories team avgs = Ok rs →
  dict_get k rs = Some r →
  avgs !! k = Some b →
  ∃ rate x, team_rate team k = Finite rate ∧
            scaled_deviation k (Finite rate) b = Finite x ∧
            r = clamp_rating (Qtrunc x).
Proof.
  intros Hk Hrun Hget Hb.
  rewrite (analyze_categories_get _ _ _ _ Hrun) in Hget.
  unfold expected_rating in Hget.
  destruct (category_frame team k) as [df|]; [|discriminate].
  destruct (df_empty df); [discriminate|].
  destruct (league_get avgs k) as [b'|] eqn:Eb; [|discriminate].
  apply league_get_Some in Eb as [Eb Hnz].
  assert (b' = b) as -> by congruence.
  rewrite (category_score_rate _ _ _ Hk) in Hget.
  destruct (scaled_deviation k (team_rate team k) b) as [x| | |] eqn:Ex;
    try discriminate.
  simpl in Hget. injection Hget as <-.
  destruct (is_finite_inv (team_rate team k)) as [rate Hrate].
  { apply (scaled_deviation_finite k _ b). rewrite Ex. reflexivity. }
  exists rate, x. rewrite Hrate in Ex. auto.
Qed.

(** With floor in place of truncation the formula is wrong below the
    baseline: a .269 team against a .270 league is rated 5, and
    [floor(((0.269 - 0.270) / 0.030) * 5) + 5] is 4. *)
Lemma rate_rating_is_not_floor :
  ¬ (∀ team avgs rs k b r rate x,
       k ∈ rate_categories →
       _analyze_categories team avgs = Ok rs →
       dict_get k rs = Some r →
       avgs !! k = Some b →
       team_rate team k = Finite rate →
       scaled_deviation k (Finite rate) b = Finite x →
       r = Z.max 1 (Z.min 10 (Qfloor x + 5))).
Proof.
  intros H.
  set (rate := finite_value (team_rate team_avg269 "batting_avg")).
  set (x := finite_value
              (scaled_deviation "batting_avg" (Finite rate) (270 # 1000))).
  specialize (H team_avg269 avgs_avg270 [("batting_avg", 5)] "batting_avg"
                (270 # 1000)%Q 5 rate x).
  enough (5 = 4) by discriminate.
  etrans; [apply H|].
  - apply str_in_elem_of. vm_compute. reflexivity.
  - vm_compute. reflexivity.
  - vm_compute. reflexivity.
  - vm_compute. reflexivity.
  - vm_compute. reflexivity.
  - vm_compute. reflexivity.
  - vm_compute. reflexivity.
Qed.

(** The same team in exact arithmetic: the claim's formula gives 4
    there too. *)
Lemma rate_rating_is_not_exact_floor :
  _analyze_categories team_avg269 avgs_avg270 = Ok [("batting_avg", 5)] ∧
  Z.max 1 (Z.min 10
    (Qfloor (exact_scaled_deviation "batting_avg" (269 # 1000) (270 # 1000))
     + 5)) = 4.
Proof. vm_compute. auto. Qed.

(** The roundings of binary64 decide the rating where the exact score is
    a whole number: an ERA of 4.0 against a league ERA of 4.1 is rated
    5, as [4.1 - 4.0] is the float [0.09999999999999964] and the score
    falls short of 1, where exact arithmetic gives 6; a .230 average
    against .236 is rated 5, and a .260 average against .230 is rated
    10. *)
Lemma rounding_decides_rating :
  _analyze_categories team_era40 avgs_era41 = Ok [("era", 5)] ∧
  Z.max 1 (Z.min 10
    (Qtrunc (exact_scaled_deviation "era" (4 # 1) (41 # 10)) + 5)) = 6 ∧
  _analyze_categories (team_avg (230 # 1000)) (avgs_avg (236 # 1000))
    = Ok [("batting_avg", 5)] ∧
  _analyze_categories (team_avg (260 # 1000)) (avgs_avg (230 # 1000))
    = Ok [("batting_avg", 10)].
Proof. vm_compute. auto. Qed.

(** C7 (amended): for a rate category with a non-zero baseline the rating
    stored in [ratings] is [clamp(1, 10, trunc(x) + 5)], where [x] is the
    float the source computes for [(d / s) * 5] (the difference [d], the
    quotient by the float of [s] and the product by 5 each rounded to the
    nearest float) and [trunc] rounds toward zero as Python's [int] does;
    [d] is [team_rate - baseline] for the batting average ([s = 0.030])
    and [baseline - team_rate] for ERA ([s = 0.50]) and WHIP
    ([s = 0.10]).  This is the floor of [x] when [x] is not negative and
    its ceiling when [x] is not positive. *)
Theorem rate_rating_formula team avgs rs k b r :
  k ∈ rate_categories →
  _analyze_categories team avgs = Ok rs →
  dict_get k rs = Some r →
  avgs !! k = Some b →
  ∃ rate x,
    team_rate team k = Finite rate ∧
    scaled_deviation k (Finite rate) b = Finite x ∧
    r = Z.max 1 (Z.min 10 (Qtrunc x + 5)) ∧
    ((0 <= x)%Q → r = Z.max 1 (Z.min 10 (Qfloor x + 5))) ∧
    ((x <= 0)%Q → r = Z.max 1 (Z.min 10 (Qceiling x + 5))).
Proof.
  intros Hk Hrun Hget Hb.
  destruct (rate_rating_get _ _ _ _ _ _ Hk Hrun Hget Hb)
    as (rate & x & Hr & Hx & ->).
  exists rate, x. unfold clamp_rating.
  split; [exact Hr|]. split; [exact Hx|]. split; [reflexivity|]. split.
  - intros Hpos. rewrite Qtrunc_nonneg by exact Hpos. reflexivity.
  - intros Hneg. rewrite Qtrunc_nonpos by exact Hneg. reflexivity.
Qed.

Lemma rate_rating_formula_witness :
  ∃ rate x,
    team_rate team_avg269 "batting_avg" = Finite rate ∧
    scaled_deviation "batting_avg" (Finite rate) (270 # 1000) = Finite x ∧
    5 = Z.max 1 (Z.min 10 (Qtrunc x + 5)) ∧
    ((0 <= x)%Q → 5 = Z.max 1 (Z.min 10 (Qfloor x + 5))) ∧
    ((x <= 0)%Q → 5 = Z.max 1 (Z.min 10 (Qceiling x + 5))).
Proof.
  apply (rate_rating_formula team_avg269 avgs_avg270 [("batting_avg", 5)]
           "batting_avg" (270 # 1000) 5).
  - apply str_in_elem_of. vm_compute. reflexivity.
  - vm_compute. reflexivity.
  - vm_compute. reflexivity.
  - vm_compute. reflexivity.
Defined.

(** ** Zero weights *)

(** The fallback the source has: without a weight column the rate is 0. *)
Lemma team_avg_of_no_weights df :
  has_col "plate_appearances" df = false → team_avg_of df = Finite 0.
Proof. unfold team_avg_of. intros ->. reflexivity. Qed.

Lemma team_rate_of_no_weights c df :
  has_col "innings_pitched" df = false → team_rate_of c df = Finite 0.
Proof. unfold team_rate_of. intros ->. reflexivity. Qed.

Lemma rate_category_finite avgs k score rs :
  (∀ b, league_get avgs k = Some b → ∃ q, score b = Finite q) →
  ∃ rs', rate_category avgs k score rs = Ok rs'.
Proof.
  intros Hs. unfold rate_category.
  destruct (league_get avgs k) as [b|] eqn:Eb; [|eauto].
  destruct (Hs b eq_refl) as [q ->]. simpl. eauto.
Qed.

Lemma counting_score_is_finite t b :
  ¬ (b == 0)%Q → ∃ q, counting_score t b = Finite q.
Proof. intros Hb. rewrite counting_score_finite by exact Hb. eauto. Qed.

Lemma counting_category_completes avgs k t rs :
  ∃ rs', rate_category avgs k (counting_score t) rs = Ok rs'.
Proof.
  apply rate_category_finite. intros b Hb.
  apply league_get_Some in Hb as [_ Hnz].
  apply counting_score_is_finite, Hnz.
Qed.

(** The analysis completes whenever every value the rate categories hand
    to [int(...)] is finite. *)
Lemma analyze_categories_completes team avgs :
  rates_finite team avgs →
  ∃ rs, _analyze_categories team avgs = Ok rs ∧ Forall rating_ok rs.
Proof.
  intros Hfin.
  enough (∃ rs, _analyze_categories team avgs = Ok rs) as [rs Hrs]
    by eauto using ratings_in_range.
  assert (Hrate : ∀ k rs,
            k ∈ rate_categories →
            ∃ rs', rate_category avgs k (category_score team k) rs = Ok rs').
  { intros k rs Hk. apply rate_category_finite. intros b Hb.
    apply is_finite_inv, (Hfin k b Hk Hb). }
  unfold _analyze_categories.
  fold (batters_df team). fold (pitchers_df team).
  assert (H1 : ∃ rs1, (if negb (df_empty (batters_df team))
                       then rate_batting (batters_df team) avgs []
                       else mret []) = Ok rs1).
  { destruct (df_empty (batters_df team)); simpl; [eauto|].
    unfold rate_batting.
    destruct (counting_category_completes avgs "home_runs"
                (col_total "home_runs" (batters_df team)) [])
      as [r1 ->]; cbn [mbind result_bind].
    destruct (counting_category_completes avgs "rbi"
                (col_total "rbi" (batters_df team)) r1)
      as [r2 ->]; cbn [mbind result_bind].
    destruct (counting_category_completes avgs "stolen_bases"
                (col_total "stolen_bases" (batters_df team)) r2)
      as [r3 ->]; cbn [mbind result_bind].
    apply (Hrate "batting_avg" r3). apply str_in_elem_of. reflexivity. }
  destruct H1 as [rs1 ->]; cbn [mbind result_bind].
  destruct (df_empty (pitchers_df team)); cbn [negb]; [eauto|].
  unfold rate_pitching.
  destruct (Hrate "era" rs1) as [r1 Hr1];
    [apply str_in_elem_of; reflexivity|].
  destruct (Hrate "whip" r1) as [r2 Hr2];
    [apply str_in_elem_of; reflexivity|].
  change (rate_category avgs "era"
            (fun b => rate_score
                        (fsub64 (b64 b) (team_rate_of "era" (pitchers_df team)))
                        (50 # 100)) rs1 = Ok r1) in Hr1.
  change (rate_category avgs "whip"
            (fun b => rate_score
                        (fsub64 (b64 b) (team_rate_of "whip" (pitchers_df team)))
                        (10 # 100)) r1 = Ok r2) in Hr2.
  cbv zeta. rewrite Hr1. cbn [mbind result_bind].
  rewrite Hr2. cbn [mbind result_bind].
  destruct (counting_category_completes avgs "wins"
              (col_total "wins" (pitchers_df team)) r2)
    as [r3 ->]; cbn [mbind result_bind].
  destruct (counting_category_completes avgs "saves"
              (col_total "saves" (pitchers_df team)) r3)
    as [r4 ->]; cbn [mbind result_bind].
  destruct (counting_category_completes avgs "strikeouts"
              (col_total "strikeouts" (pitchers_df team)) r4)
    as [r5 ->]. eauto.
Qed.

(** C4: a batter with zero plate appearances makes the weight sum zero;
    the weighted batting average is then [nan], not 0, and rating it
    against a non-zero league average raises [ValueError]. *)
Theorem zero_plate_appearances_raise :
  col_sum "plate_appearances" (batters_df team_no_pa) = 0%Q ∧
  team_avg_of (batters_df team_no_pa) = NaN ∧
  _analyze_categories team_no_pa avgs_avg270 = Raise ValueError.
Proof. vm_compute. auto. Qed.

(** C3: all inputs are finite and the pitcher has a total of zero
    innings; the computation raises instead of returning ratings. *)
Theorem zero_innings_raise :
  team_rate_of "era" (pitchers_df team_no_innings) = NaN ∧
  raises (_analyze_categories team_no_innings avgs_era4).
Proof.
  split; [vm_compute; reflexivity|].
  exists ValueError. vm_compute. reflexivity.
Qed.

(** ** Which rosters get which ratings *)

Lemma df_not_empty_inv (ps : list player) :
  df_empty (stats_of <$> ps) = false → ∃ p, p ∈ ps.
Proof.
  destruct ps as [|p ps]; [discriminate|]. intros _. exists p. left.
Qed.

Lemma stats_has_has_stat k p : stats_has k p = true → has_stat k p.
Proof.
  unfold stats_has, has_stat. destruct (stats p) as [m|]; [|discriminate].
  intros H. apply bool_decide_eq_true in H. eauto.
Qed.

(** C10: a batting rating ([home_runs], [rbi], [stolen_bases],
    [batting_avg]) is emitted only if some rostered player has a stats
    mapping with the key ['batting_avg'], a pitching rating ([era], [whip],
    [wins], [saves], [strikeouts]) only if some has the key ['era'],
    whatever the league baselines are. *)
Theorem ratings_need_players team avgs rs k r :
  _analyze_categories team avgs = Ok rs →
  dict_get k rs = Some r →
  (k ∈ hitting_cats → ∃ p, p ∈ players team ∧ has_stat "batting_avg" p) ∧
  (k ∈ pitching_cats → ∃ p, p ∈ players team ∧ has_stat "era" p).
Proof.
  intros Hrun Hget.
  rewrite (analyze_categories_get _ _ _ _ Hrun) in Hget.
  unfold expected_rating, category_frame in Hget.
  split; intros Hk; apply str_in_elem_of in Hk.
  - rewrite Hk in Hget.
    destruct (df_empty (batters_df team)) eqn:E; [discriminate|].
    apply df_not_empty_inv in E as [p Hp].
    apply list_elem_of_filter in Hp as [Hp Hin].
    exists p. split; [exact Hin|].
    apply andb_true_iff in Hp as [_ Hp]. apply stats_has_has_stat, Hp.
  - destruct (str_in k hitting_cats) eqn:Eh.
    { apply hitting_not_pitching in Eh. congruence. }
    rewrite Hk in Hget.
    destruct (df_empty (pitchers_df team)) eqn:E; [discriminate|].
    apply df_not_empty_inv in E as [p Hp].
    apply list_elem_of_filter in Hp as [Hp Hin].
    exists p. split; [exact Hin|].
    apply andb_true_iff in Hp as [_ Hp]. apply stats_has_has_stat, Hp.
Qed.

Lemma ratings_need_players_witness :
  (("home_runs" : string) ∈ hitting_cats →
   ∃ p, p ∈ players team_hr40 ∧ has_stat "batting_avg" p) ∧
  (("home_runs" : string) ∈ pitching_cats →
   ∃ p, p ∈ players team_hr40 ∧ has_stat "era" p).
Proof.
  apply (ratings_need_players team_hr40 avgs_hr20 [("home_runs", 10)]
           "home_runs" 10).
  - vm_compute. reflexivity.
  - vm_compute. reflexivity.
Defined.

(** ** Recommendations *)

Lemma append_if_app c s (l r : list string) :
  append_if c s (l ++ r) = l ++ append_if c s r.
Proof. destruct c; simpl; [rewrite app_assoc|]; reflexivity. Qed.

Lemma elem_of_append_if x c s (l : list string) :
  x ∈ append_if c s l → x ∈ l ∨ (c = true ∧ x = s).
Proof.
  destruct c; simpl; [|auto].
  rewrite elem_of_app, list_elem_of_singleton. intros [H|H]; auto.
Qed.

(** The list starts with what the two roster rules emit. *)
Lemma recommendations_prefix a :
  ∃ rest,
    _generate_recommendations a =
    append_if (count_below (roster_breakdown a) "RP" 2) rec_relievers
      (append_if (count_below (roster_breakdown a) "OF" 3) rec_outfielders [])
    ++ rest.
Proof.
  unfold _generate_recommendations. cbv zeta.
  generalize (append_if (count_below (roster_breakdown a) "RP" 2)
                rec_relievers
                (append_if (count_below (roster_breakdown a) "OF" 3)
                   rec_outfielders [])).
  intros base. unfold append_if.
  repeat match goal with
         | |- context [if ?c then _ else _] => destruct c
         end;
    rewrite <- ?app_assoc;
    first [eexists; reflexivity | exists []; symmetry; apply app_nil_r].
Qed.

(** A string of a roster rule is in the list only if the rule fired. *)
Lemma roster_rule_fired a s :
  s = rec_outfielders ∨ s = rec_relievers →
  s ∈ _generate_recommendations a →
  (s = rec_outfielders ∧ count_below (roster_breakdown a) "OF" 3 = true) ∨
  (s = rec_relievers ∧ count_below (roster_breakdown a) "RP" 2 = true).
Proof.
  intros Hs H. unfold _generate_recommendations in H. cbv zeta in H.
  assert (Hne : ∀ c x l, s ∈ append_if c x l →
                         x ≠ rec_outfielders → x ≠ rec_relievers → s ∈ l).
  { intros c x l Hin H1 H2.
    apply elem_of_append_if in Hin as [Hin|[_ ->]]; [exact Hin|].
    destruct Hs; contradiction. }
  assert (H' : s ∈ append_if (count_below (roster_breakdown a) "RP" 2)
                      rec_relievers
                      (append_if (count_below (roster_breakdown a) "OF" 3)
                         rec_outfielders [])).
  { repeat match type of H with
           | _ ∈ (if ?c then _ else _) => destruct c
           end;
      [apply (Hne true) in H; [|discriminate..] ..|];
      do 5 (apply Hne in H; [|discriminate..]); exact H. }
  apply elem_of_append_if in H' as [H'|[Hc ->]]; [|auto].
  apply elem_of_append_if in H' as [H'|[Hc ->]]; [inversion H'|auto].
Qed.



(** A roster without players is analysed without any recommendation. *)
Lemma analyze_empty_roster avgs :
  analyze_team 1 (Some (mk_team [])) avgs = Ok (Some empty_roster_analysis).
Proof. reflexivity. Qed.

(** With no outfielder and no reliever on the roster neither string is
    recommended. *)
Lemma no_slots_no_recommendation :
  ¬ (∀ a, slots a "OF" = 0 → slots a "RP" = 0 →
          in_order rec_outfielders rec_relievers (_generate_recommendations a)).
Proof.
  intros H.
  destruct (H empty_roster_analysis eq_refl eq_refl) as (l1 & l2 & l3 & E).
  destruct l1; discriminate E.
Qed.

(** C5 (amended): when the roster breakdown has an entry for OF with a
    count below 3 and an entry for RP with a count below 2, the
    recommendations start with the add-outfielders string followed by the
    add-relievers string; a position without an entry in the breakdown
    (no rostered player holds it) triggers no recommendation. *)
Theorem roster_recommendations a :
  (∀ n m, roster_breakdown a !! "OF" = Some n → n < 3 →
          roster_breakdown a !! "RP" = Some m → m < 2 →
          in_order rec_outfielders rec_relievers (_generate_recommendations a) ∧
          ∃ rest, _generate_recommendations a =
                  rec_outfielders :: rec_relievers :: rest) ∧
  (roster_breakdown a !! "OF" = None →
   rec_outfielders ∉ _generate_recommendations a) ∧
  (roster_breakdown a !! "RP" = None →
   rec_relievers ∉ _generate_recommendations a).
Proof.
  split; [|split].
  - intros n m Hof Hn Hrp Hm.
    destruct (recommendations_prefix a) as [rest E].
    unfold count_below in E. rewrite Hof, Hrp in E.
    apply Z.ltb_lt in Hn, Hm. rewrite Hn, Hm in E. simpl in E.
    split; [|eauto].
    exists [], [], rest. exact E.
  - intros Hof Hin. apply roster_rule_fired in Hin; [|auto].
    unfold count_below in Hin. rewrite Hof in Hin.
    destruct Hin as [[_ ?]|[? _]]; discriminate.
  - intros Hrp Hin. apply roster_rule_fired in Hin; [|auto].
    unfold count_below in Hin. rewrite Hrp in Hin.
    destruct Hin as [[? _]|[_ ?]]; discriminate.
Qed.

Lemma roster_recommendations_witness :
  in_order rec_outfielders rec_relievers
    (_generate_recommendations thin_roster_analysis).
Proof.
  apply (proj1 (roster_recommendations thin_roster_analysis) 1 1).
  - vm_compute. reflexivity.
  - lia.
  - vm_compute. reflexivity.
  - lia.
Defined.

(** ** Raw statistics of the standings *)

Lemma foldl_dict_set_get {V} (v : V) (names : list string) :
  ∀ (d : list (string * V)) (k : string),
    dict_get k (foldl (fun d n => dict_set n v d) d names) =
    if str_in k names then Some v else dict_get k d.
Proof.
  induction names as [|n names IH]; intros d k; [reflexivity|].
  cbn [foldl]. rewrite IH. unfold str_in; cbn [existsb].
  fold (str_in k names). rewrite dict_get_set.
  destruct (str_in k names); [rewrite orb_true_r; reflexivity|].
  rewrite orb_false_r. reflexivity.
Qed.

Lemma init_results_get names k :
  dict_get k (init_results names) =
  if str_in k names then Some raw_init else None.
Proof. unfold init_results. rewrite foldl_dict_set_get. reflexivity. Qed.

Lemma init_rankings_get names k :
  dict_get k (init_rankings names) =
  if str_in k names then Some {[ "total" := 0 ]} else None.
Proof. unfold init_rankings. rewrite foldl_dict_set_get. reflexivity. Qed.

Lemma dict_at_Some {V} (k : string) (v : V) (d : list (string * V)) :
  dict_get k d = Some v → dict_at k d = Ok v.
Proof. unfold dict_at. intros ->. reflexivity. Qed.

Lemma map_at_Some {V} (k : string) (v : V) (m : gmap string V) :
  m !! k = Some v → map_at k m = Ok v.
Proof. unfold map_at. intros ->. reflexivity. Qed.

(** The two stat loops only touch the entry of the team. *)
Lemma batters_loop name rows :
  ∀ results s,
    dict_get name results = Some s →
    ∃ results',
      foldlM (fun results stats =>
                match stats with
                | Some row =>
                    s ← dict_at name results;
                    mret (dict_set name (add_batting s row) results)
                | None => mret results
                end) results rows = Ok results' ∧
      ∀ k, dict_get k results' =
           if String.eqb k name then Some (bat_fold s rows)
           else dict_get k results.
Proof.
  induction rows as [|[row|] rows IH]; intros results s Hs; cbn [foldlM].
  - exists results. split; [reflexivity|]. intros k.
    destruct (String.eqb_spec k name) as [->|]; auto.
  - rewrite (dict_at_Some _ _ _ Hs). simpl.
    destruct (IH (dict_set name (add_batting s row) results)
                (add_batting s row)) as (r' & -> & Hr').
    { apply dict_get_set_eq. }
    exists r'. split; [reflexivity|]. intros k. rewrite Hr'.
    rewrite dict_get_set. destruct (String.eqb k name); reflexivity.
  - simpl. apply IH, Hs.
Qed.

Lemma pitchers_loop name rows :
  ∀ results s,
    dict_get name results = Some s →
    ∃ results',
      foldlM (fun results stats =>
                match stats with
                | Some row =>
                    s ← dict_at name results;
                    mret (dict_set name (add_pitching s row) results)
                | None => mret results
                end) results rows = Ok results' ∧
      ∀ k, dict_get k results' =
           if String.eqb k name then Some (pit_fold s rows)
           else dict_get k results.
Proof.
  induction rows as [|[row|] rows IH]; intros results s Hs; cbn [foldlM].
  - exists results. split; [reflexivity|]. intros k.
    destruct (String.eqb_spec k name) as [->|]; auto.
  - rewrite (dict_at_Some _ _ _ Hs). simpl.
    destruct (IH (dict_set name (add_pitching s row) results)
                (add_pitching s row)) as (r' & -> & Hr').
    { apply dict_get_set_eq. }
    exists r'. split; [reflexivity|]. intros k. rewrite Hr'.
    rewrite dict_get_set. destruct (String.eqb k name); reflexivity.
  - simpl. apply IH, Hs.
Qed.

Lemma py_div_pos a n : 0 < n → py_div a n = Ok (a / inject_Z n)%Q.
Proof.
  intros H. unfold py_div. destruct (Z.eqb_spec n 0); [lia|reflexivity].
Qed.

(** One iteration of the team loop never raises, and divides only when
    the roster is not empty. *)
Lemma process_team_get results t s :
  dict_get (lt_team_name t) results = Some s →
  ∃ results',
    process_team results t = Ok results' ∧
    ∀ k, dict_get k results' =
         if String.eqb k (lt_team_name t) then Some (team_final s t)
         else dict_get k results.
Proof.
  intros Hs. unfold process_team, team_final.
  destruct (batters_loop (lt_team_name t) (lt_batters t) results s Hs)
    as (r1 & -> & Hr1). cbn [mbind result_bind].
  set (s1 := bat_fold s (lt_batters t)) in *.
  assert (Hs1 : dict_get (lt_team_name t) r1 = Some s1).
  { rewrite Hr1, String.eqb_refl. reflexivity. }
  set (s2 := normalize_batting (length (lt_batters t)) s1).
  assert (H2 : ∃ r2,
             (if 0 <? Z.of_nat (length (lt_batters t)) then
                s ← dict_at (lt_team_name t) r1;
                a ← py_div (raw_avg s) (Z.of_nat (length (lt_batters t)));
                mret (dict_set (lt_team_name t) (with_avg a s) r1)
              else mret r1) = Ok r2 ∧
             ∀ k, dict_get k r2 =
                  if String.eqb k (lt_team_name t) then Some s2
                  else dict_get k results).
  { unfold s2, normalize_batting.
    destruct (Z.ltb_spec 0 (Z.of_nat (length (lt_batters t)))) as [Hn|Hn].
    - rewrite (dict_at_Some _ _ _ Hs1). simpl.
      rewrite py_div_pos by exact Hn.
      simpl. eexists. split; [reflexivity|]. intros k.
      rewrite dict_get_set, Hr1. destruct (String.eqb k _); reflexivity.
    - exists r1. split; [reflexivity|]. exact Hr1. }
  destruct H2 as (r2 & -> & Hr2). cbn [mbind result_bind].
  assert (Hs2 : dict_get (lt_team_name t) r2 = Some s2).
  { rewrite Hr2, String.eqb_refl. reflexivity. }
  destruct (pitchers_loop (lt_team_name t) (lt_pitchers t) r2 s2 Hs2)
    as (r3 & -> & Hr3). cbn [mbind result_bind].
  set (s3 := pit_fold s2 (lt_pitchers t)) in *.
  assert (Hs3 : dict_get (lt_team_name t) r3 = Some s3).
  { rewrite Hr3, String.eqb_refl. reflexivity. }
  unfold normalize_pitching.
  destruct (Z.ltb_spec 0 (Z.of_nat (length (lt_pitchers t)))) as [Hn|Hn].
  - rewrite (dict_at_Some _ _ _ Hs3). simpl.
    rewrite !py_div_pos by exact Hn.
    simpl. eexists. split; [reflexivity|]. intros k.
    rewrite dict_get_set, Hr3, Hr2. destruct (String.eqb k _); reflexivity.
  - exists r3. split; [reflexivity|]. intros k.
    rewrite Hr3, Hr2. destruct (String.eqb k _); reflexivity.
Qed.

(** The loop over the teams never raises; with pairwise distinct team
    names every team's entry is computed from the initial zeros. *)
Lemma team_loop teams :
  ∀ results,
    (∀ t, t ∈ teams → is_Some (dict_get (lt_team_name t) results)) →
    ∃ results',
      foldlM process_team results teams = Ok results' ∧
      (∀ k, is_Some (dict_get k results') ↔ is_Some (dict_get k results)) ∧
      (∀ k, k ∉ names_of teams → dict_get k results' = dict_get k results) ∧
      (NoDup (names_of teams) →
       ∀ t s, t ∈ teams → dict_get (lt_team_name t) results = Some s →
              dict_get (lt_team_name t) results' = Some (team_final s t)).
Proof.
  induction teams as [|t teams IH]; intros results Hkeys; cbn [foldlM].
  - exists results. repeat split; auto. intros _ t s Ht. inversion Ht.
  - destruct (Hkeys t) as [s Hs]; [left|].
    destruct (process_team_get results t s Hs) as (r1 & -> & Hr1).
    cbn [mbind result_bind].
    assert (Hsame : ∀ k, is_Some (dict_get k r1) ↔ is_Some (dict_get k results)).
    { intros k. rewrite Hr1. destruct (String.eqb_spec k (lt_team_name t))
        as [->|]; [|reflexivity]. rewrite Hs. split; eauto. }
    destruct (IH r1) as (r' & -> & Hdom & Hframe & Hval).
    { intros t' Ht'. apply Hsame, Hkeys. right. exact Ht'. }
    exists r'. split; [reflexivity|]. split; [|split].
    + intros k. rewrite Hdom. apply Hsame.
    + intros k Hk. unfold names_of in Hk. rewrite fmap_cons in Hk.
      apply not_elem_of_cons in Hk as [Hne Hk].
      rewrite (Hframe k Hk), Hr1.
      destruct (String.eqb_spec k (lt_team_name t)); congruence.
    + intros Hnd t' s' Ht' Hs'. unfold names_of in Hnd.
      rewrite fmap_cons in Hnd. apply NoDup_cons in Hnd as [Hnotin Hnd].
      apply elem_of_cons in Ht' as [->|Ht'].
      * rewrite (Hframe _ Hnotin), Hr1, String.eqb_refl. congruence.
      * apply (Hval Hnd); [exact Ht'|]. rewrite Hr1.
        destruct (String.eqb_spec (lt_team_name t') (lt_team_name t)) as [E|];
          [|exact Hs'].
        exfalso. apply Hnotin. rewrite <- E.
        apply list_elem_of_fmap. eauto.
Qed.

Lemma str_in_names teams t :
  t ∈ teams → str_in (lt_team_name t) (names_of teams) = true.
Proof.
  intros H. apply str_in_elem_of. apply list_elem_of_fmap. eauto.
Qed.

(** *** The values the loop leaves *)

Lemma Qsum_cons x l : Qsum (x :: l) = (x + Qsum l)%Q.
Proof. reflexivity. Qed.

Lemma bat_fold_avg rows :
  ∀ s, (raw_avg (bat_fold s rows) == raw_avg s + rows_sum batting_avg rows)%Q.
Proof.
  unfold bat_fold, rows_sum.
  induction rows as [|[row|] rows IH]; intros s; cbn [foldl fmap list_fmap].
  - simpl. lra.
  - rewrite IH, Qsum_cons. simpl. lra.
  - rewrite IH, Qsum_cons. lra.
Qed.

Lemma pit_fold_era rows :
  ∀ s, (raw_era (pit_fold s rows) == raw_era s + rows_sum era rows)%Q.
Proof.
  unfold pit_fold, rows_sum.
  induction rows as [|[row|] rows IH]; intros s; cbn [foldl fmap list_fmap].
  - simpl. lra.
  - rewrite IH, Qsum_cons. simpl. lra.
  - rewrite IH, Qsum_cons. lra.
Qed.

Lemma pit_fold_whip rows :
  ∀ s, (raw_whip (pit_fold s rows) == raw_whip s + rows_sum whip rows)%Q.
Proof.
  unfold pit_fold, rows_sum.
  induction rows as [|[row|] rows IH]; intros s; cbn [foldl fmap list_fmap].
  - simpl. lra.
  - rewrite IH, Qsum_cons. simpl. lra.
  - rewrite IH, Qsum_cons. lra.
Qed.

Lemma pit_fold_avg rows : ∀ s, raw_avg (pit_fold s rows) = raw_avg s.
Proof.
  unfold pit_fold.
  induction rows as [|[row|] rows IH]; intros s; cbn [foldl];
    [reflexivity|rewrite IH; reflexivity|apply IH].
Qed.

Lemma bat_fold_pitching rows :
  ∀ s, raw_era (bat_fold s rows) = raw_era s ∧
       raw_whip (bat_fold s rows) = raw_whip s.
Proof.
  unfold bat_fold.
  induction rows as [|[row|] rows IH]; intros s; cbn [foldl];
    [auto|rewrite !(proj1 (IH _)), !(proj2 (IH _)); auto|apply IH].
Qed.

Lemma length_pos_ltb {A} (x : A) (l : list A) :
  (0 <? Z.of_nat (length (x :: l))) = true.
Proof. apply Z.ltb_lt. simpl. lia. Qed.

(** The category values of a team whose entry started from the zeros. *)
Lemma team_final_values t :
  (raw_avg (team_final raw_init t) == rows_average batting_avg (lt_batters t))%Q ∧
  (raw_era (team_final raw_init t) == rows_average era (lt_pitchers t))%Q ∧
  (raw_whip (team_final raw_init t) == rows_average whip (lt_pitchers t))%Q.
Proof.
  unfold team_final.
  set (s1 := bat_fold raw_init (lt_batters t)).
  set (s2 := normalize_batting (length (lt_batters t)) s1).
  set (s3 := pit_fold s2 (lt_pitchers t)).
  assert (H2avg : (raw_avg s2 == rows_average batting_avg (lt_batters t))%Q).
  { unfold s2, s1, normalize_batting, rows_average.
    destruct (lt_batters t) as [|b bs] eqn:E; [simpl; lra|].
    rewrite length_pos_ltb. unfold with_avg. cbn [raw_avg].
    rewrite bat_fold_avg. change (raw_avg raw_init) with 0%Q.
    apply Qdiv_comp; [lra|reflexivity]. }
  assert (H2p : raw_era s2 = 0%Q ∧ raw_whip s2 = 0%Q).
  { unfold s2, normalize_batting.
    destruct (0 <? _); simpl; unfold s1;
      rewrite (proj1 (bat_fold_pitching _ _)), (proj2 (bat_fold_pitching _ _));
      auto. }
  destruct H2p as [H2e H2w].
  unfold normalize_pitching, rows_average.
  destruct (lt_pitchers t) as [|p ps] eqn:E.
  - simpl. unfold s3. simpl. rewrite H2e, H2w.
    split; [exact H2avg|]. split; lra.
  - rewrite length_pos_ltb. unfold with_era, with_whip.
    cbn [raw_avg raw_era raw_whip]. unfold s3.
    rewrite pit_fold_avg, pit_fold_era, pit_fold_whip, H2e, H2w.
    split; [exact H2avg|].
    split; (apply Qdiv_comp; [lra|reflexivity]).
Qed.

(** ** Sorting *)

Lemma mapM_result_pure {A B} (f : A → result B) (g : A → B) (l : list A) :
  (∀ x, x ∈ l → f x = Ok (g x)) → mapM_result f l = Ok (g <$> l).
Proof.
  induction l as [|x l IH]; intros H; [reflexivity|].
  cbn [mapM_result]. rewrite (H x) by left. cbn [mbind result_bind].
  rewrite IH; [reflexivity|]. intros y Hy. apply H. right. exact Hy.
Qed.

Lemma insert_sorted_perm {A} reverse (x : Q * A) l :
  insert_sorted reverse x l ≡ₚ x :: l.
Proof.
  induction l as [|y l IH]; cbn [insert_sorted]; [reflexivity|].
  destruct (goes_before reverse x.1 y.1); [reflexivity|].
  rewrite IH. apply Permutation_swap.
Qed.

Lemma stable_sort_perm {A} reverse (l : list (Q * A)) :
  stable_sort reverse l ≡ₚ l.
Proof.
  unfold stable_sort. induction l as [|x l IH]; cbn [foldr]; [reflexivity|].
  rewrite insert_sorted_perm, IH. reflexivity.
Qed.

Lemma sorted_teams_perm results c names :
  sorted_teams results c names ≡ₚ names.
Proof.
  unfold sorted_teams. rewrite stable_sort_perm.
  rewrite <- list_fmap_compose. simpl.
  rewrite list_fmap_id. reflexivity.
Qed.






(** The sort of [rank_category] never raises when every team has an entry
    in [results]. *)
Lemma py_sorted_teams results c reverse names :
  (∀ t, t ∈ names → is_Some (dict_get t results)) →
  py_sorted (fun t => s ← dict_at t results; mret (raw_value c s))
            reverse names =
  Ok (stable_sort reverse ((fun t => (team_value results c t, t)) <$> names)).*2.
Proof.
  intros H. unfold py_sorted.
  rewrite (mapM_result_pure _ (fun t => (team_value results c t, t))).
  - reflexivity.
  - intros t Ht. destruct (H t Ht) as [s Hs].
    rewrite (dict_at_Some _ _ _ Hs). unfold team_value. rewrite Hs.
    reflexivity.
Qed.

(** ** Assigning the points of one category *)

Lemma enumerate_length {A} (l : list A) start : length (enumerate start l) = length l.
Proof.
  revert start. induction l as [|x l IH]; intros start; simpl; auto.
Qed.

Lemma elem_of_enumerate {A} (l : list A) start i x :
  (i, x) ∈ enumerate start l → x ∈ l.
Proof.
  revert start. induction l as [|y l IH]; intros start; simpl.
  - intros H. inversion H.
  - rewrite elem_of_cons. intros [[= -> ->]|H]; [left|right; eauto].
Qed.

Lemma last_index_None n (l : list string) start :
  n ∉ l → last_index n (enumerate start l) = None.
Proof.
  revert start. induction l as [|x l IH]; intros start Hn; [reflexivity|].
  apply not_elem_of_cons in Hn as [Hne Hn].
  cbn [enumerate last_index]. rewrite IH by exact Hn.
  destruct (String.eqb_spec x n); congruence.
Qed.

Lemma last_index_lookup n (l : list string) :
  NoDup l → ∀ start i, l !! i = Some n →
  last_index n (enumerate start l) = Some (start + Z.of_nat i).
Proof.
  induction 1 as [|x l Hx Hnd IH]; intros start i Hi; [discriminate|].
  cbn [enumerate last_index]. destruct i as [|i]; simpl in Hi.
  - injection Hi as ->. rewrite last_index_None by exact Hx.
    rewrite String.eqb_refl. f_equal. lia.
  - rewrite (IH _ _ Hi). f_equal. lia.
Qed.

Lemma last_index_is_Some n (l : list string) start :
  n ∈ l → is_Some (last_index n (enumerate start l)).
Proof.
  revert start. induction l as [|x l IH]; intros start Hn; [inversion Hn|].
  cbn [enumerate last_index].
  destruct (last_index n (enumerate (start + 1) l)) eqn:E; [eauto|].
  apply elem_of_cons in Hn as [->|Hn].
  - rewrite String.eqb_refl. eauto.
  - destruct (IH (start + 1) Hn) as [j Hj]. congruence.
Qed.

(** Twice the sum of the numbers an enumeration hands out. *)
Lemma enumerate_sum (l : list string) :
  NoDup l → ∀ start,
  2 * Zsum ((fun n => default 0 (last_index n (enumerate start l))) <$> l) =
  Z.of_nat (length l) * (2 * start + Z.of_nat (length l) - 1).
Proof.
  induction 1 as [|x l Hx Hnd IH]; intros start; [reflexivity|].
  cbn [fmap list_fmap Zsum foldr enumerate last_index length].
  rewrite last_index_None by exact Hx. rewrite String.eqb_refl.
  cbn [default].
  assert (E : (fun n => default 0
                 match last_index n (enumerate (start + 1) l) with
                 | Some j => Some j
                 | None => if (x =? n)%string then Some start else None
                 end) <$> l =
              (fun n => default 0 (last_index n (enumerate (start + 1) l)))
                <$> l).
  { apply list_fmap_ext. intros i n Hn.
    destruct (last_index_is_Some n l (start + 1)) as [j ->]; [|reflexivity].
    eapply list_elem_of_lookup_2, Hn. }
  fold (Zsum ((λ n : string,
          default 0
            match last_index n (enumerate (start + 1) l) with
            | Some j => Some j
            | None => if (x =? n)%string then Some start else None
            end) <$> l)).
  rewrite E. specialize (IH (start + 1)). unfold id.
  rewrite Nat2Z.inj_succ.
  set (S := Zsum _) in *. set (L := Z.of_nat (length l)) in *.
  clearbody S L.
  replace (2 * (start + S)) with (2 * start + 2 * S) by ring.
  rewrite IH. ring.
Qed.

Lemma has_total_get n rk (rankings : list (string * gmap string Z)) :
  Forall has_total rankings → dict_get n rankings = Some rk →
  is_Some (rk !! "total").
Proof.
  intros Hall Hget. apply dict_get_elem_of in Hget.
  rewrite Forall_forall in Hall. apply (Hall _ Hget).
Qed.

Lemma assign_points_step cat rankings i m rk total :
  cat ≠ "total" →
  dict_get m rankings = Some rk →
  rk !! "total" = Some total →
  assign_points cat rankings (i, m) =
  Ok (dict_set m
        (<["total" := total + i]>
           (<[cat := i]> (match rk !! cat with
                          | Some _ => rk
                          | None => <[cat := 0]> rk
                          end))) rankings).
Proof.
  intros Hcat Hrk Htotal. unfold assign_points.
  rewrite (dict_at_Some _ _ _ Hrk). cbn [mbind result_bind].
  assert (Ht1 : <[cat:=i]> (match rk !! cat with
                            | Some _ => rk
                            | None => <[cat:=0]> rk
                            end) !! "total" = Some total).
  { rewrite lookup_insert_ne by exact Hcat.
    destruct (rk !! cat); [exact Htotal|].
    rewrite lookup_insert_ne by exact Hcat. exact Htotal. }
  rewrite (map_at_Some _ _ _ Ht1). reflexivity.
Qed.

Lemma assign_points_loop cat items :
  cat ≠ "total" →
  ∀ rankings,
    Forall has_total rankings →
    (∀ i n, (i, n) ∈ items → is_Some (dict_get n rankings)) →
    ∃ rankings',
      foldlM (assign_points cat) rankings items = Ok rankings' ∧
      Forall has_total rankings' ∧
      points_assigned cat items rankings rankings'.
Proof.
  intros Hcat. induction items as [|[i m] items IH];
    intros rankings Htot Hkeys; cbn [foldlM].
  - exists rankings. split; [reflexivity|]. split; [exact Htot|].
    intros n. destruct (dict_get n rankings) as [rk|]; [|reflexivity].
    exists rk. auto.
  - destruct (Hkeys i m) as [rk Hrk]; [left|].
    destruct (has_total_get _ _ _ Htot Hrk) as [total Htotal].
    rewrite (assign_points_step _ _ _ _ _ _ Hcat Hrk Htotal).
    cbn [mbind result_bind].
    set (rk0 := match rk !! cat with
                | Some _ => rk
                | None => <[cat:=0]> rk
                end).
    set (rk1 := <["total":=total + i]> (<[cat:=i]> rk0)).
    assert (Hrk1 : rk1 !! cat = Some i).
    { unfold rk1. rewrite lookup_insert_ne by congruence.
      apply lookup_insert_eq. }
    assert (Hframe : ∀ c', c' ≠ cat → c' ≠ "total" → rk1 !! c' = rk !! c').
    { intros c' H1 H2. unfold rk1, rk0.
      rewrite !lookup_insert_ne by congruence.
      destruct (rk !! cat); [reflexivity|].
      rewrite lookup_insert_ne by congruence. reflexivity. }
    destruct (IH (dict_set m rk1 rankings)) as (r' & -> & Htot' & Hpts).
    { apply dict_set_Forall; [|exact Htot]. unfold has_total, rk1; simpl.
      rewrite lookup_insert_eq. eauto. }
    { intros j n Hn. rewrite dict_get_set.
      destruct (String.eqb n m); [eauto|]. apply (Hkeys j). right. exact Hn. }
    exists r'. split; [reflexivity|]. split; [exact Htot'|].
    intros n. specialize (Hpts n). rewrite dict_get_set in Hpts.
    cbn [last_index].
    destruct (String.eqb_spec n m) as [E|Hne].
    + subst n. rewrite Hrk. destruct Hpts as (rk' & Hget & Hc & Hf).
      exists rk'. split; [exact Hget|]. split.
      * rewrite Hc, Hrk1, String.eqb_refl.
        destruct (last_index m items); reflexivity.
      * intros c' H1 H2. rewrite Hf, Hframe by assumption. reflexivity.
    + destruct (dict_get n rankings) as [rkn|]; [|exact Hpts].
      destruct Hpts as (rk' & Hget & Hc & Hf).
      exists rk'. split; [exact Hget|]. split; [|exact Hf].
      rewrite Hc. destruct (String.eqb_spec m n); [congruence|].
      destruct (last_index n items); reflexivity.
Qed.

Lemma cat_name_not_total c : cat_name c ≠ "total".
Proof. destruct c; discriminate. Qed.

Lemma cat_name_inj c c' : cat_name c = cat_name c' → c = c'.
Proof. destruct c, c'; first [reflexivity | discriminate]. Qed.

(** One category: the teams are sorted and the points assigned, without
    raising. *)
Lemma rank_category_spec results names rankings c :
  (∀ t, t ∈ names → is_Some (dict_get t results)) →
  rankings_ready names rankings →
  ∃ rankings',
    rank_category results names rankings c = Ok rankings' ∧
    rankings_ready names rankings' ∧
    points_assigned (cat_name c)
      (enumerate 1 (sorted_teams results c names)) rankings rankings'.
Proof.
  intros Hres [Hkeys Htot]. unfold rank_category.
  assert (Hsort : (if lower_is_better c
                   then py_sorted (fun t => s ← dict_at t results;
                                            mret (raw_value c s)) false names
                   else py_sorted (fun t => s ← dict_at t results;
                                            mret (raw_value c s)) true names)
                  = Ok (sorted_teams results c names)).
  { unfold sorted_teams.
    destruct (lower_is_better c); apply py_sorted_teams, Hres. }
  rewrite Hsort. cbn [mbind result_bind].
  destruct (assign_points_loop (cat_name c)
              (enumerate 1 (sorted_teams results c names))
              (cat_name_not_total c) rankings Htot)
    as (r' & Hr' & Htot' & Hpts).
  { intros i n Hin. apply elem_of_enumerate in Hin.
    rewrite sorted_teams_perm in Hin. apply Hkeys, Hin. }
  exists r'. split; [exact Hr'|]. split; [|exact Hpts].
  split; [|exact Htot'].
  intros n Hn. specialize (Hpts n). destruct (Hkeys n Hn) as [rk Hrk].
  rewrite Hrk in Hpts. destruct Hpts as (rk' & -> & _). eauto.
Qed.

(** ** All categories *)

Lemma foldlM_app {A B} (f : A → B → result A) (l1 l2 : list B) :
  ∀ a, foldlM f a (l1 ++ l2) = (a' ← foldlM f a l1; foldlM f a' l2).
Proof.
  induction l1 as [|x l1 IH]; intros a; [reflexivity|].
  cbn [foldlM app]. destruct (f a x) as [a1|e]; [|reflexivity].
  cbn [mbind result_bind]. apply IH.
Qed.

Lemma foldlM_nested {A B C} (f : A → B → result A) (a : A)
    (c1 c2 : C) (l1 l2 : list B) :
  foldlM (fun a '(_, l) => foldlM f a l) a [(c1, l1); (c2, l2)] =
  foldlM f a (l1 ++ l2).
Proof.
  rewrite foldlM_app. cbn [foldlM].
  destruct (foldlM f a l1) as [a1|e]; [|reflexivity].
  cbn [mbind result_bind].
  destruct (foldlM f a1 l2); reflexivity.
Qed.

Lemma rank_categories_spec results names cats :
  (∀ t, t ∈ names → is_Some (dict_get t results)) →
  ∀ rankings,
    rankings_ready names rankings →
    ∃ rankings',
      foldlM (rank_category results names) rankings cats = Ok rankings' ∧
      rankings_ready names rankings' ∧
      ∀ n, match dict_get n rankings with
           | None => dict_get n rankings' = None
           | Some rk =>
               ∃ rk', dict_get n rankings' = Some rk' ∧
                 (∀ c, c ∉ cats → rk' !! cat_name c = rk !! cat_name c) ∧
                 (NoDup cats → ∀ c, c ∈ cats →
                    rk' !! cat_name c =
                    from_option Some (rk !! cat_name c)
                      (last_index n
                         (enumerate 1 (sorted_teams results c names))))
           end.
Proof.
  intros Hres. induction cats as [|c0 cats IH]; intros rankings Hready;
    cbn [foldlM].
  - exists rankings. split; [reflexivity|]. split; [exact Hready|].
    intros n. destruct (dict_get n rankings) as [rk|]; [|reflexivity].
    exists rk. split; [reflexivity|]. split; [reflexivity|].
    intros _ c Hc. inversion Hc.
  - destruct (rank_category_spec results names rankings c0 Hres Hready)
      as (r1 & -> & Hready1 & Hpts).
    cbn [mbind result_bind].
    destruct (IH r1 Hready1) as (r' & -> & Hready' & Hrest).
    exists r'. split; [reflexivity|]. split; [exact Hready'|].
    intros n. specialize (Hpts n). specialize (Hrest n).
    destruct (dict_get n rankings) as [rk|].
    + destruct Hpts as (rk1 & Hget1 & Hc0 & Hframe).
      rewrite Hget1 in Hrest.
      destruct Hrest as (rk' & Hget' & Hout & Hin).
      assert (Hother : ∀ c, c ≠ c0 → rk1 !! cat_name c = rk !! cat_name c).
      { intros c Hne. apply Hframe; [|apply cat_name_not_total].
        intros E. apply Hne, cat_name_inj, E. }
      exists rk'. split; [exact Hget'|]. split.
      * intros c Hc. apply not_elem_of_cons in Hc as [Hne Hc].
        rewrite (Hout c Hc). apply Hother, Hne.
      * intros Hnd c Hc. apply NoDup_cons in Hnd as [Hc0' Hnd].
        apply elem_of_cons in Hc as [->|Hc].
        -- rewrite (Hout c0 Hc0'). exact Hc0.
        -- rewrite (Hin Hnd c Hc), Hother; [reflexivity|].
           intros ->. contradiction.
    + rewrite Hpts in Hrest. exact Hrest.
Qed.

Lemma all_categories_NoDup : NoDup all_categories.
Proof.
  unfold all_categories.
  repeat (apply NoDup_cons; split;
          [rewrite ?elem_of_cons, elem_of_nil; intuition discriminate|]).
  apply NoDup_nil_2.
Qed.

Lemma all_categories_complete c : c ∈ all_categories.
Proof.
  unfold all_categories. rewrite !elem_of_cons. destruct c; auto 12.
Qed.

Lemma init_rankings_ready names : rankings_ready names (init_rankings names).
Proof.
  split.
  - intros n Hn. rewrite init_rankings_get.
    apply str_in_elem_of in Hn. rewrite Hn. eauto.
  - unfold init_rankings.
    enough (∀ d : list (string * gmap string Z), Forall has_total d →
              Forall has_total
                (foldl (fun d n => dict_set n {["total" := 0]} d) d names))
      as H by (apply H; constructor).
    induction names as [|n names IH]; intros d Hd; [exact Hd|].
    cbn [foldl]. apply IH. apply dict_set_Forall; [|exact Hd].
    unfold has_total; simpl. rewrite lookup_singleton_eq. eauto.
Qed.

Lemma py_sorted_ok {A} (key : A → result Q) reverse (l : list A) :
  (∀ x, x ∈ l → ∃ q, key x = Ok q) →
  ∃ l', py_sorted key reverse l = Ok l'.
Proof.
  intros H. unfold py_sorted.
  rewrite (mapM_result_pure _
             (fun x => (match key x with Ok q => q | Raise _ => 0%Q end, x))).
  - simpl. eauto.
  - intros x Hx. destruct (H x Hx) as [q ->]. reflexivity.
Qed.

(** The whole computation never raises; its raw statistics are what the
    team loop computes and the rank of a team in a category is the
    position of its last occurrence in the sorted list of team names. *)
Lemma standings_body_spec teams :
  ∃ s,
    standings_body teams = Ok s ∧
    foldlM process_team (init_results (names_of teams)) teams
      = Ok (raw_stats s) ∧
    ∀ c n, n ∈ names_of teams →
           rank_of s n c =
           last_index n
             (enumerate 1 (sorted_teams (raw_stats s) c (names_of teams))).
Proof.
  unfold standings_body. fold (names_of teams).
  destruct (team_loop teams (init_results (names_of teams)))
    as (results & Hloop & Hdom & _).
  { intros t Ht. rewrite init_results_get, (str_in_names _ _ Ht). eauto. }
  rewrite Hloop. cbn [mbind result_bind].
  assert (Hres : ∀ t, t ∈ names_of teams → is_Some (dict_get t results)).
  { intros t Ht. apply Hdom. rewrite init_results_get.
    apply str_in_elem_of in Ht. rewrite Ht. eauto. }
  assert (Hcats : foldlM
                    (fun rankings '(stat_type, cats) =>
                       foldlM (rank_category results (names_of teams))
                         rankings cats)
                    (init_rankings (names_of teams)) categories =
                  foldlM (rank_category results (names_of teams))
                    (init_rankings (names_of teams)) all_categories).
  { apply (foldlM_nested (rank_category results (names_of teams))). }
  rewrite Hcats.
  destruct (rank_categories_spec results (names_of teams) all_categories Hres
              (init_rankings (names_of teams)) (init_rankings_ready _))
    as (rankings & -> & [Hkeys Htot] & Hranks).
  cbn [mbind result_bind].
  destruct (py_sorted_ok
              (fun x : string * gmap string Z =>
                 total ← map_at "total" x.2; mret (inject_Z total))
              true rankings) as [final ->].
  { intros x Hx. rewrite Forall_forall in Htot.
    destruct (Htot x Hx) as [total Ht]. rewrite (map_at_Some _ _ _ Ht).
    simpl. eauto. }
  cbn [mbind result_bind mret result_ret].
  eexists. split; [reflexivity|]. cbn [raw_stats]. split; [reflexivity|].
  intros c n Hn. unfold rank_of. cbn [rankings_of].
  specialize (Hranks n). rewrite init_rankings_get in Hranks.
  pose proof Hn as Hn'. apply str_in_elem_of in Hn'. rewrite Hn' in Hranks.
  destruct Hranks as (rk' & -> & _ & Hin). cbn [mbind option_bind].
  rewrite (Hin all_categories_NoDup c (all_categories_complete c)).
  destruct (last_index_is_Some n (sorted_teams results c (names_of teams)) 1)
    as [i ->]; [|reflexivity].
  rewrite sorted_teams_perm. exact Hn.
Qed.

(** ** The standings *)

Lemma project_team_standings_Some teams s :
  project_team_standings teams = Some s → standings_body teams = Ok s.
Proof.
  unfold project_team_standings. destruct teams as [|t teams]; [discriminate|].
  destruct (standings_body (t :: teams)); [congruence|discriminate].
Qed.

Lemma no_ties_NoDup s c (names : list string) :
  no_ties s c names → NoDup names.
Proof.
  intros H. apply NoDup_alt. intros i j t Hi Hj.
  destruct (decide (i = j)) as [|Hne]; [assumption|].
  exfalso. apply (H i j t t Hi Hj Hne). reflexivity.
Qed.

(** With pairwise distinct team names the rank is the position in the
    sorted list, counted from 1. *)
Lemma rank_is_sort_position teams s c i t :
  standings_body teams = Ok s →
  NoDup (names_of teams) →
  sorted_teams (raw_stats s) c (names_of teams) !! i = Some t →
  rank_of s t c = Some (1 + Z.of_nat i).
Proof.
  intros Hs Hnd Hi.
  destruct (standings_body_spec teams) as (s' & Hs' & _ & Hrank).
  assert (s' = s) as -> by congruence.
  rewrite Hrank.
  - apply last_index_lookup; [|exact Hi].
    rewrite sorted_teams_perm. exact Hnd.
  - rewrite <- (sorted_teams_perm (raw_stats s) c).
    eapply list_elem_of_lookup_2, Hi.
Qed.


(** C1: Team A (ERA 3.00) against Team B (ERA 4.50): the source sorts ERA
    in ascending order and numbers the sorted teams from 1, so Team A,
    the better team, gets rank 1 and Team B rank 2. *)
Theorem era_ranks_two_teams :
  project_team_standings league_ab = Some standings_ab ∧
  (team_value (raw_stats standings_ab) Era "Team A" == 300 # 100)%Q ∧
  (team_value (raw_stats standings_ab) Era "Team B" == 450 # 100)%Q ∧
  rank_of standings_ab "Team A" Era = Some 1 ∧
  rank_of standings_ab "Team B" Era = Some 2.
Proof.
  split; [vm_compute; reflexivity|].
  vm_compute. repeat split; reflexivity.
Qed.

Lemma Zsum_perm (l1 l2 : list Z) : l1 ≡ₚ l2 → Zsum l1 = Zsum l2.
Proof.
  unfold Zsum. induction 1; simpl; lia.
Qed.

(** C8: in a league of N teams, in every category without ties each
    team's rank is an integer of [1,N] and two teams never share a rank;
    and in every category, ties or not, the ranks of the N teams (which
    the standings identify by their pairwise distinct names) add up to
    N(N+1)/2. *)
Theorem rotisserie_ranks teams s c :
  project_team_standings teams = Some s →
  (no_ties s c (names_of teams) →
   (∀ t, t ∈ names_of teams →
         ∃ r, rank_of s t c = Some r ∧ 1 ≤ r ≤ Z.of_nat (length teams)) ∧
   (∀ i j t1 t2,
      names_of teams !! i = Some t1 → names_of teams !! j = Some t2 →
      i ≠ j → rank_of s t1 c ≠ rank_of s t2 c)) ∧
  (NoDup (names_of teams) →
   sum_ranks s c (names_of teams) =
   Z.of_nat (length teams) * (Z.of_nat (length teams) + 1) / 2).
Proof.
  intros Hs. apply project_team_standings_Some in Hs.
  set (sorted := sorted_teams (raw_stats s) c (names_of teams)).
  assert (Hperm : sorted ≡ₚ names_of teams) by apply sorted_teams_perm.
  assert (Hlen : length sorted = length teams).
  { rewrite Hperm. unfold names_of. apply length_fmap. }
  assert (Hpos : NoDup (names_of teams) → ∀ t, t ∈ names_of teams →
                 ∃ i, sorted !! i = Some t ∧
                      rank_of s t c = Some (1 + Z.of_nat i)).
  { intros Hnd t Ht. rewrite <- Hperm in Ht.
    apply list_elem_of_lookup_1 in Ht as [i Hi]. exists i.
    split; [exact Hi|]. eapply rank_is_sort_position; eauto. }
  split.
  - intros Hties. pose proof (no_ties_NoDup _ _ _ Hties) as Hnd. split.
    + intros t Ht. destruct (Hpos Hnd t Ht) as (i & Hi & Hr).
      exists (1 + Z.of_nat i). split; [exact Hr|].
      apply lookup_lt_Some in Hi. lia.
    + intros i j t1 t2 Hi Hj Hne Heq.
      destruct (Hpos Hnd t1) as (i1 & Hi1 & Hr1);
        [eapply list_elem_of_lookup_2, Hi|].
      destruct (Hpos Hnd t2) as (i2 & Hi2 & Hr2);
        [eapply list_elem_of_lookup_2, Hj|].
      rewrite Hr1, Hr2 in Heq. injection Heq as Heq.
      assert (i1 = i2) as -> by lia.
      assert (t1 = t2) as -> by congruence.
      apply Hne. eapply NoDup_alt; eauto.
  - intros Hnd. unfold sum_ranks.
    destruct (standings_body_spec teams) as (s' & Hs' & _ & Hrank).
    assert (s' = s) as -> by congruence.
    assert (Hnd' : NoDup sorted) by (rewrite Hperm; exact Hnd).
    pose proof (enumerate_sum sorted Hnd' 1) as Hsum.
    rewrite Hlen in Hsum.
    assert (E : Zsum ((fun t => default 0 (rank_of s t c)) <$> names_of teams) =
                Zsum ((fun n => default 0 (last_index n (enumerate 1 sorted)))
                        <$> sorted)).
    { rewrite (Zsum_perm _ ((fun t => default 0 (rank_of s t c)) <$> sorted))
        by (rewrite Hperm; reflexivity).
      f_equal. apply list_fmap_ext. intros i t Hi.
      rewrite Hrank; [reflexivity|].
      rewrite <- Hperm. eapply list_elem_of_lookup_2, Hi. }
    rewrite E. set (S := Zsum _) in *. set (N := Z.of_nat (length teams)) in *.
    clearbody S N.
    assert (E2 : N * (N + 1) = S * 2) by lia.
    rewrite E2. symmetry. apply Z.div_mul. discriminate.
Qed.

Lemma rotisserie_ranks_witness :
  project_team_standings league_ab = Some standings_ab ∧
  ((∀ t, t ∈ names_of league_ab →
         ∃ r, rank_of standings_ab t Era = Some r ∧ 1 ≤ r ≤ 2) ∧
   (∀ i j t1 t2,
      names_of league_ab !! i = Some t1 →
      names_of league_ab !! j = Some t2 →
      i ≠ j → rank_of standings_ab t1 Era ≠ rank_of standings_ab t2 Era)) ∧
  sum_ranks standings_ab Era (names_of league_ab) = 3.
Proof.
  assert (Hs : project_team_standings league_ab = Some standings_ab)
    by (vm_compute; reflexivity).
  split; [exact Hs|]. split.
  - apply (proj1 (rotisserie_ranks league_ab standings_ab Era Hs)).
    intros i j t1 t2 Hi Hj Hne.
    destruct i as [|[|i]]; [| |discriminate Hi];
      (destruct j as [|[|j]]; [| |discriminate Hj]);
      try (exfalso; apply Hne; reflexivity);
      injection Hi as <-; injection Hj as <-;
      vm_compute; discriminate.
  - apply (proj2 (rotisserie_ranks league_ab standings_ab Era Hs)).
    apply NoDup_cons. split.
    + rewrite list_elem_of_singleton. discriminate.
    + apply NoDup_singleton.
Defined.

(** C9: no division is performed for an empty roster, so the standings
    are computed without raising; with teams identified by their names, a
    team's batting average is the sum of the batting averages of its
    batters' stat rows divided by the number of all its batters (a batter
    without a stat row adds 0 to the sum and still counts), likewise ERA
    and WHIP over its pitchers, and 0 when it has no batter (pitcher). *)
Theorem standings_rates teams :
  ∃ s,
    standings_body teams = Ok s ∧
    (NoDup (names_of teams) →
     ∀ t, t ∈ teams →
       ∃ r, dict_get (lt_team_name t) (raw_stats s) = Some r ∧
            (raw_avg r == rows_average batting_avg (lt_batters t))%Q ∧
            (raw_era r == rows_average era (lt_pitchers t))%Q ∧
            (raw_whip r == rows_average whip (lt_pitchers t))%Q ∧
            (lt_batters t = [] → (raw_avg r == 0)%Q) ∧
            (lt_pitchers t = [] → (raw_era r == 0)%Q ∧ (raw_whip r == 0)%Q)).
Proof.
  destruct (standings_body_spec teams) as (s & Hs & Hraw & _).
  exists s. split; [exact Hs|]. intros Hnd t Ht.
  destruct (team_loop teams (init_results (names_of teams)))
    as (results & Hloop & _ & _ & Hval).
  { intros t' Ht'. rewrite init_results_get, (str_in_names _ _ Ht'). eauto. }
  assert (results = raw_stats s) as -> by congruence.
  exists (team_final raw_init t).
  destruct (team_final_values t) as (Havg & Hera & Hwhip).
  split.
  { apply (Hval Hnd); [exact Ht|].
    rewrite init_results_get, (str_in_names _ _ Ht). reflexivity. }
  split; [exact Havg|]. split; [exact Hera|]. split; [exact Hwhip|].
  split.
  - intros E. rewrite Havg, E. reflexivity.
  - intros E. rewrite Hera, Hwhip, E. split; reflexivity.
Qed.

Lemma standings_rates_witness :
  ∃ r, (raw_avg r == 0)%Q ∧ (raw_era r == 450 # 100)%Q.
Proof.
  destruct (standings_rates league_ab) as (s & _ & Hv).
  assert (Hnd : NoDup (names_of league_ab)).
  { apply NoDup_cons. split.
    - rewrite list_elem_of_singleton. discriminate.
    - apply NoDup_singleton. }
  destruct (Hv Hnd
              {| lt_team_id := 2; lt_team_name := "Team B";
                 lt_batters := [None];
                 lt_pitchers := [pitcher_line (450 # 100)] |})
    as (r & _ & Havg & Hera & _).
  { right. left. }
  exists r. split; [rewrite Havg|rewrite Hera]; reflexivity.
Defined.

(** * Further properties of the analysis *)

(** ** The shape of the recommendation list *)






(** ** The keys of the ratings dictionary *)








(** ** Strengths and weaknesses *)









(** ** Rules that cannot fire *)











(** ** When the rating computation raises *)















(** ** The roster breakdown *)



(** ** League baselines *)












(** ** Ratings are monotone *)





(** * Further properties of the standings *)

(** ** Ties keep the league order *)









(** ** The total is the sum of the ranks *)












(** ** The final standings *)













(** ** The counting categories *)
















(** ** A team at the league's rate *)





(** ** The standings table of the import tool *)






(** ** The comparison of teams *)






(** ** Wrapped text *)








(** Two texts: a recommendation at the width the chart uses, and a text
    whose first word is longer than the width. *)
Lemma wrap_text_examples :
  _wrap_text rec_ratios 40 =
  "Consider streaming only high-quality" +:+ newline +:+
  "pitchers to improve ratios" ∧
  _wrap_text "  Supercalifragilistic  word here " 5 =
  newline +:+ "Supercalifragilistic" +:+ newline +:+ "word" +:+ newline +:+
  "here".
Proof. vm_compute. auto. Qed.
